(** * The CodeStory session service and the inline-edit value object

    A shallow embedding of
    [src/vs/workbench/services/csAccount/browser/csAuthenticationService.ts]
    (class [CSAuthenticationService]) and of
    [src/vs/editor/contrib/inlineCompletions/browser/model/inlineEdit.ts]
    (class [InlineEdit]).

    Values are the values the TypeScript has at run time: what
    [JSON.parse] returns is a [json] tree, a property that is not there
    reads as [undefined] ([None]), and a record type of the source is a
    record of such values, because its [as] casts check nothing.  The
    service's fields, the secret storage and the effects on the
    collaborators (network, notifications, URL handlers, the event
    emitter) form one [State]; the answers of the collaborators are an
    [Env]; a method is a computation in a state-and-exception monad. *)

From Stdlib Require Import Ascii String ZArith DecimalFacts DecimalZ.
From stdpp Require Import base option list strings gmap.

Local Open Scope string_scope.

(** ** JSON values *)

(** What [JSON.parse] produces.  A number is the decimal number that
    its literal denotes, held exactly: an integer is a [JNum]; any other
    number is a [JDec], given by its sign, its whole part and the digits
    after the point, which are kept last digit first as one positive
    number, so that the last digit after the point is never a zero:
    [12.05] is [JDec false 12 50], and [-0.5] is [JDec true 0 5].  The
    rounding of the host to a 64-bit float, with its overflow and
    underflow, is not modelled.  An object
    is the list of its members in source order; a key that occurs twice
    reads as its last member. *)
#[warnings="-register-all"]
Inductive json : Type :=
| JNull
| JBool (b : bool)
| JNum (n : Z)
| JDec (negative : bool) (whole : N) (fraction : positive)
| JStr (s : string)
| JArr (elements : list json)
| JObj (members : list (string * json)).

(** A JavaScript value as far as this service meets one: a JSON value or
    [undefined]. *)
Abbreviation jsval := (option json).
Abbreviation undefined := (@None json).

(** The induction principle that reaches below arrays and objects. *)
Section json_induction.
Variable P : json → Prop.
Hypothesis Hnull : P JNull.
Hypothesis Hbool : ∀ b, P (JBool b).
Hypothesis Hnum : ∀ n, P (JNum n).
Hypothesis Hdec : ∀ negative whole fraction, P (JDec negative whole fraction).
Hypothesis Hstr : ∀ s, P (JStr s).
Hypothesis Harr : ∀ l, Forall P l → P (JArr l).
Hypothesis Hobj : ∀ m, Forall (λ kv, P kv.2) m → P (JObj m).

Fixpoint json_nested_ind (v : json) : P v :=
  match v with
  | JNull => Hnull
  | JBool b => Hbool b
  | JNum n => Hnum n
  | JDec negative whole fraction => Hdec negative whole fraction
  | JStr s => Hstr s
  | JArr l =>
      Harr l ((fix go (l : list json) : Forall P l :=
                 match l with
                 | [] => Forall_nil_2 P
                 | x :: l' => Forall_cons_2 P x l' (json_nested_ind x) (go l')
                 end) l)
  | JObj m =>
      Hobj m ((fix go (m : list (string * json)) : Forall (λ kv, P kv.2) m :=
                 match m with
                 | [] => Forall_nil_2 _
                 | kv :: m' =>
                     Forall_cons_2 (λ kv, P kv.2) kv m' (json_nested_ind kv.2) (go m')
                 end) m)
  end.
End json_induction.

(** ** [JSON.stringify]

    A string is held as its UTF-8 bytes, a surrogate that stands alone
    as the three bytes the same encoding gives its code point.  Every
    printer takes the text that follows, so the text of a value is
    [serialize v EmptyString].  A number that is not an integer is
    written with all its digits and without an exponent. *)

Definition dquote : ascii := "034"%char.
Definition backslash : ascii := "092"%char.

Definition hex_digit (n : N) : ascii :=
  match n with
  | 0%N => "0" | 1%N => "1" | 2%N => "2" | 3%N => "3"
  | 4%N => "4" | 5%N => "5" | 6%N => "6" | 7%N => "7"
  | 8%N => "8" | 9%N => "9" | 10%N => "a" | 11%N => "b"
  | 12%N => "c" | 13%N => "d" | 14%N => "e" | _ => "f"
  end%char.

(** QuoteJSONString, one code unit: the quote and the backslash are
    escaped, a control character gets its short escape or [\u00xx]. *)
Definition quote_char (c : ascii) (k : string) : string :=
  let n := N_of_ascii c in
  if Ascii.eqb c dquote then String backslash (String dquote k)
  else if Ascii.eqb c backslash then String backslash (String backslash k)
  else if (n =? 8)%N then String backslash (String "b" k)
  else if (n =? 12)%N then String backslash (String "f" k)
  else if (n =? 10)%N then String backslash (String "n" k)
  else if (n =? 13)%N then String backslash (String "r" k)
  else if (n =? 9)%N then String backslash (String "t" k)
  else if (n <? 32)%N then
    String backslash (String "u" (String "0" (String "0"
      (String (hex_digit (n / 16)) (String (hex_digit (n mod 16)) k)))))
  else String c k.

Fixpoint quote_chars (s : string) (k : string) : string :=
  match s with
  | EmptyString => String dquote k
  | String c s' => quote_char c (quote_chars s' k)
  end.

Definition quote (s : string) (k : string) : string :=
  String dquote (quote_chars s k).

Fixpoint print_uint (d : Decimal.uint) (k : string) : string :=
  match d with
  | Decimal.Nil => k
  | Decimal.D0 d => String "0" (print_uint d k)
  | Decimal.D1 d => String "1" (print_uint d k)
  | Decimal.D2 d => String "2" (print_uint d k)
  | Decimal.D3 d => String "3" (print_uint d k)
  | Decimal.D4 d => String "4" (print_uint d k)
  | Decimal.D5 d => String "5" (print_uint d k)
  | Decimal.D6 d => String "6" (print_uint d k)
  | Decimal.D7 d => String "7" (print_uint d k)
  | Decimal.D8 d => String "8" (print_uint d k)
  | Decimal.D9 d => String "9" (print_uint d k)
  end.

Definition print_int (d : Decimal.int) (k : string) : string :=
  match d with
  | Decimal.Pos u => print_uint u k
  | Decimal.Neg u => String "-" (print_uint u k)
  end.

(** [whole.fraction], with a minus sign before it when negative. *)
Definition print_dec (negative : bool) (whole : N) (fraction : positive)
    (k : string) : string :=
  let digits :=
    print_uint (N.to_uint whole)
      (String "." (print_uint (Decimal.rev (Pos.to_uint fraction)) k)) in
  if negative then String "-" digits else digits.

Section serialize_lists.
Variable ser : json → string → string.

Fixpoint serialize_elements (l : list json) (k : string) : string :=
  match l with
  | [] => String "]" k
  | v :: l => String "," (ser v (serialize_elements l k))
  end.

Definition serialize_member (key : string) (v : json) (k : string) : string :=
  quote key (String ":" (ser v k)).

Fixpoint serialize_members (m : list (string * json)) (k : string) : string :=
  match m with
  | [] => String "}" k
  | kv :: m => String "," (serialize_member kv.1 kv.2 (serialize_members m k))
  end.
End serialize_lists.

Fixpoint serialize (v : json) (k : string) : string :=
  match v with
  | JNull => "null" +:+ k
  | JBool true => "true" +:+ k
  | JBool false => "false" +:+ k
  | JNum n => print_int (Z.to_int n) k
  | JDec negative whole fraction => print_dec negative whole fraction k
  | JStr s => quote s k
  | JArr [] => "[]" +:+ k
  | JArr (v :: l) =>
      String "[" (serialize v (serialize_elements serialize l k))
  | JObj [] => "{}" +:+ k
  | JObj (kv :: m) =>
      String "{" (serialize_member serialize kv.1 kv.2
                    (serialize_members serialize m k))
  end.

Definition JSON_stringify (v : json) : string := serialize v EmptyString.

(** ** [JSON.parse]

    A recursive-descent reader of the JSON grammar (white space, the
    three literals, numbers with their fraction and exponent, strings
    with their escapes, arrays, objects).  [None] is the [SyntaxError]
    of the source.  The fuel
    bounds the depth of the calls; two calls in a row read at least one
    character, so [JSON_parse] gives twice the length of the text. *)

Definition is_ws (c : ascii) : bool :=
  let n := N_of_ascii c in
  (n =? 32)%N || (n =? 9)%N || (n =? 10)%N || (n =? 13)%N.

Fixpoint skip_ws (s : string) : string :=
  match s with
  | String c s' => if is_ws c then skip_ws s' else s
  | EmptyString => s
  end.

Definition digit_of (c : ascii) : option (Decimal.uint → Decimal.uint) :=
  match c with
  | "0" => Some Decimal.D0 | "1" => Some Decimal.D1 | "2" => Some Decimal.D2
  | "3" => Some Decimal.D3 | "4" => Some Decimal.D4 | "5" => Some Decimal.D5
  | "6" => Some Decimal.D6 | "7" => Some Decimal.D7 | "8" => Some Decimal.D8
  | "9" => Some Decimal.D9 | _ => None
  end%char.

Definition is_digit (c : ascii) : bool :=
  match digit_of c with Some _ => true | None => false end.

Fixpoint parse_digits (s : string) : Decimal.uint * string :=
  match s with
  | String c s' =>
      match digit_of c with
      | Some d => let '(u, rest) := parse_digits s' in (d u, rest)
      | None => (Decimal.Nil, s)
      end
  | EmptyString => (Decimal.Nil, s)
  end.

(** An integer literal is not followed by a fraction or an exponent. *)
Definition ends_integer (rest : string) : bool :=
  match rest with
  | String c _ => negb (Ascii.eqb c "." || Ascii.eqb c "e" || Ascii.eqb c "E")
  | EmptyString => true
  end.

(** The digits after a point, at least one; none when there is no
    point. *)
Definition parse_fraction (s : string) : option (Decimal.uint * string) :=
  match s with
  | String c s' =>
      if Ascii.eqb c "." then
        let '(u, rest) := parse_digits s' in
        if Decimal.uint_beq u Decimal.Nil then None else Some (u, rest)
      else Some (Decimal.Nil, s)
  | EmptyString => Some (Decimal.Nil, s)
  end.

(** The exponent after [e] or [E]: an optional sign and at least one
    digit, leading zeros allowed; [0] when there is no exponent. *)
Definition parse_exponent (s : string) : option (Z * string) :=
  match s with
  | String c s' =>
      if Ascii.eqb c "e" || Ascii.eqb c "E" then
        let '(negative, digits) :=
          match s' with
          | String c' s'' =>
              if Ascii.eqb c' "-" then (true, s'')
              else if Ascii.eqb c' "+" then (false, s'')
              else (false, s')
          | EmptyString => (false, s')
          end in
        let '(u, rest) := parse_digits digits in
        if Decimal.uint_beq u Decimal.Nil then None
        else
          let n := Z.of_N (N.of_uint u) in
          Some (if negative : bool then (- n)%Z else n, rest)
      else Some (0%Z, s)
  | EmptyString => Some (0%Z, s)
  end.

Definition zeros (n : nat) : Decimal.uint := Nat.iter n Decimal.D0 Decimal.Nil.

(** The point moved by the exponent: to the right over the digits of the
    fraction, or to the left over those of the whole part, over zeros
    where the digits run out. *)
Definition scale (whole fraction : Decimal.uint) (exponent : Z)
    : Decimal.uint * Decimal.uint :=
  match exponent with
  | Z0 => (whole, fraction)
  | Zpos p =>
      let n := Pos.to_nat p in
      let padded := Decimal.app fraction (zeros n) in
      (Decimal.app whole (Decimal.del_tail (Decimal.nb_digits fraction) padded),
       Decimal.del_head n padded)
  | Zneg p =>
      let n := Pos.to_nat p in
      let padded := Decimal.app (zeros n) whole in
      (Decimal.del_tail n padded,
       Decimal.app (Decimal.del_head (Decimal.nb_digits whole) padded) fraction)
  end.

(** The number with these digits and this exponent.  The zeros at the
    end of the fraction do not count; [-0] is [0]. *)
Definition decimal (negative : bool) (whole fraction : Decimal.uint)
    (exponent : Z) : json :=
  let '(w, f) := scale whole fraction exponent in
  match N.of_uint (Decimal.rev f) with
  | N0 =>
      let n := Z.of_N (N.of_uint w) in
      JNum (if negative then (- n)%Z else n)
  | Npos p => JDec negative (N.of_uint w) p
  end.

(** The digits of the whole part, which are in normal form (there is at
    least one, and no leading zero before another digit), then the
    fraction and the exponent if there are any. *)
Definition parse_unsigned (negative : bool) (s : string)
    : option (json * string) :=
  let '(u, rest) := parse_digits s in
  if Decimal.uint_beq (Decimal.unorm u) u then
    if ends_integer rest then
      Some (JNum (Z.of_int (if negative then Decimal.Neg u else Decimal.Pos u)),
            rest)
    else
      '(f, rest1) ← parse_fraction rest;
      '(e, rest2) ← parse_exponent rest1;
      Some (decimal negative u f e, rest2)
  else None.

(** An optional minus sign and the number. *)
Definition parse_number (s : string) : option (json * string) :=
  match s with
  | String c s' =>
      if Ascii.eqb c "-" then parse_unsigned true s'
      else parse_unsigned false s
  | EmptyString => None
  end.

(** The value of a hexadecimal digit, of either case. *)
Definition hex_value (c : ascii) : option N :=
  let n := N_of_ascii c in
  if (48 <=? n)%N && (n <=? 57)%N then Some (n - 48)%N
  else if (97 <=? n)%N && (n <=? 102)%N then Some (n - 87)%N
  else if (65 <=? n)%N && (n <=? 70)%N then Some (n - 55)%N
  else None.

Definition hex4 (h1 h2 h3 h4 : ascii) : option N :=
  a ← hex_value h1; b ← hex_value h2; c ← hex_value h3; d ← hex_value h4;
  Some (((a * 16 + b) * 16 + c) * 16 + d)%N.

(** The UTF-8 bytes of a code point. *)
Definition utf8 (n : N) : string :=
  if (n <? 128)%N then String (ascii_of_N n) EmptyString
  else if (n <? 2048)%N then
    String (ascii_of_N (192 + n / 64))
      (String (ascii_of_N (128 + n mod 64)) EmptyString)
  else if (n <? 65536)%N then
    String (ascii_of_N (224 + n / 4096))
      (String (ascii_of_N (128 + (n / 64) mod 64))
        (String (ascii_of_N (128 + n mod 64)) EmptyString))
  else
    String (ascii_of_N (240 + n / 262144))
      (String (ascii_of_N (128 + (n / 4096) mod 64))
        (String (ascii_of_N (128 + (n / 64) mod 64))
          (String (ascii_of_N (128 + n mod 64)) EmptyString))).

(** The two halves of a surrogate pair. *)
Definition is_high_surrogate (n : N) : bool := (55296 <=? n)%N && (n <? 56320)%N.
Definition is_low_surrogate (n : N) : bool := (56320 <=? n)%N && (n <? 57344)%N.

(** The code point of a pair. *)
Definition surrogate_pair (high low : N) : N :=
  (65536 + (high - 55296) * 1024 + (low - 56320))%N.

(** The code unit of a second [\uXXXX] escape, when it is the low half
    of a pair. *)
Definition low_surrogate (b u l1 l2 l3 l4 : ascii) : option N :=
  if Ascii.eqb b backslash && Ascii.eqb u "u" then
    m ← hex4 l1 l2 l3 l4;
    if is_low_surrogate m then Some m else None
  else None.

Definition simple_escape (e : ascii) : option ascii :=
  if Ascii.eqb e dquote then Some dquote
  else if Ascii.eqb e backslash then Some backslash
  else
    match e with
    | "/" => Some "/" | "b" => Some "008" | "f" => Some "012"
    | "n" => Some "010" | "r" => Some "013" | "t" => Some "009"
    | _ => None
    end%char.

(** The characters of a string literal after its opening quote, up to
    and including the closing one.  Two [\uXXXX] escapes in a row that
    are the halves of a surrogate pair are one code point. *)
Fixpoint parse_chars (s : string) : option (string * string) :=
  match s with
  | EmptyString => None
  | String c s1 =>
      if Ascii.eqb c dquote then Some (EmptyString, s1)
      else if Ascii.eqb c backslash then
        match s1 with
        | String "u" (String h1 (String h2 (String h3 (String h4 s2)))) =>
            n ← hex4 h1 h2 h3 h4;
            if is_high_surrogate n then
              match s2 with
              | String b (String u (String l1 (String l2 (String l3
                  (String l4 s3))))) =>
                  match low_surrogate b u l1 l2 l3 l4 with
                  | Some m =>
                      '(str, rest) ← parse_chars s3;
                      Some (utf8 (surrogate_pair n m) +:+ str, rest)
                  | None =>
                      '(str, rest) ← parse_chars s2;
                      Some (utf8 n +:+ str, rest)
                  end
              | _ =>
                  '(str, rest) ← parse_chars s2;
                  Some (utf8 n +:+ str, rest)
              end
            else
              '(str, rest) ← parse_chars s2;
              Some (utf8 n +:+ str, rest)
        | String e s2 =>
            c' ← simple_escape e;
            '(str, rest) ← parse_chars s2;
            Some (String c' str, rest)
        | EmptyString => None
        end
      else if (N_of_ascii c <? 32)%N then None
      else '(str, rest) ← parse_chars s1; Some (String c str, rest)
  end.

Definition parse_string (s : string) : option (string * string) :=
  match s with
  | String c s' => if Ascii.eqb c dquote then parse_chars s' else None
  | EmptyString => None
  end.

(** The text after [c], when the text starts with [c]. *)
Definition peek (c : ascii) (s : string) : option string :=
  match s with
  | String c' s' => if Ascii.eqb c' c then Some s' else None
  | EmptyString => None
  end.

(** The text after the word [w], when the text starts with [w]. *)
Fixpoint strip (w : string) (s : string) : option string :=
  match w with
  | EmptyString => Some s
  | String c w' => s' ← peek c s; strip w' s'
  end.

Fixpoint parse_value (fuel : nat) (s : string) : option (json * string) :=
  match fuel with
  | 0 => None
  | S fuel =>
      match skip_ws s with
      | EmptyString => None
      | String c rest as s' =>
          if Ascii.eqb c "[" then
            match peek "]" (skip_ws rest) with
            | Some rest' => Some (JArr [], rest')
            | None => '(l, rest') ← parse_elements fuel rest; Some (JArr l, rest')
            end
          else if Ascii.eqb c "{" then
            match peek "}" (skip_ws rest) with
            | Some rest' => Some (JObj [], rest')
            | None => '(m, rest') ← parse_members fuel rest; Some (JObj m, rest')
            end
          else if Ascii.eqb c dquote then
            '(str, rest') ← parse_chars rest; Some (JStr str, rest')
          else if Ascii.eqb c "n" then
            rest' ← strip "ull" rest; Some (JNull, rest')
          else if Ascii.eqb c "t" then
            rest' ← strip "rue" rest; Some (JBool true, rest')
          else if Ascii.eqb c "f" then
            rest' ← strip "alse" rest; Some (JBool false, rest')
          else parse_number s'
      end
  end
with parse_elements (fuel : nat) (s : string) : option (list json * string) :=
  match fuel with
  | 0 => None
  | S fuel =>
      '(v, rest) ← parse_value fuel s;
      match skip_ws rest with
      | String c rest' =>
          if Ascii.eqb c "," then
            '(l, rest'') ← parse_elements fuel rest'; Some (v :: l, rest'')
          else if Ascii.eqb c "]" then Some ([v], rest')
          else None
      | EmptyString => None
      end
  end
with parse_members (fuel : nat) (s : string)
    : option (list (string * json) * string) :=
  match fuel with
  | 0 => None
  | S fuel =>
      '(key, rest) ← parse_string (skip_ws s);
      rest1 ← peek ":" (skip_ws rest);
      '(v, rest2) ← parse_value fuel rest1;
      match skip_ws rest2 with
      | String c rest' =>
          if Ascii.eqb c "," then
            '(m, rest'') ← parse_members fuel rest'; Some ((key, v) :: m, rest'')
          else if Ascii.eqb c "}" then Some ([(key, v)], rest')
          else None
      | EmptyString => None
      end
  end.

(** The whole text is one value, white space around it allowed. *)
Definition JSON_parse (text : string) : option json :=
  '(v, rest) ← parse_value (S (2 * String.length text)) text;
  match skip_ws rest with
  | EmptyString => Some v
  | _ => None
  end.

(** The fuel [parse_value] needs for the text of a value. *)
Section sizes.
Variable size : json → nat.

Fixpoint elements_size (l : list json) : nat :=
  match l with
  | [] => 0
  | v :: l => S (size v + elements_size l)
  end.

Fixpoint members_size (m : list (string * json)) : nat :=
  match m with
  | [] => 0
  | kv :: m => S (size kv.2 + members_size m)
  end.
End sizes.

Fixpoint json_size (v : json) : nat :=
  match v with
  | JArr l => S (elements_size json_size l)
  | JObj m => S (members_size json_size m)
  | _ => 1
  end.

(** The characters a number starts with. *)
Definition number_start (c : ascii) : bool := is_digit c || Ascii.eqb c "-".

(** What may follow a value inside a text: nothing, or one of [,] []]
    [}]. *)
Definition delimited (k : string) : bool :=
  match k with
  | EmptyString => true
  | String c _ => Ascii.eqb c "," || Ascii.eqb c "]" || Ascii.eqb c "}"
  end.

(** With enough fuel, and whatever follows, the text of [v] reads back
    as [v]. *)
Definition reads_back (v : json) : Prop :=
  ∀ fuel k, (json_size v ≤ fuel)%nat → delimited k = true →
    parse_value fuel (serialize v k) = Some (v, k).

(** ** Reading values *)

(** The last member under [key]: a later member overwrites an earlier
    one of the same key. *)
Fixpoint member (key : string) (m : list (string * json)) : jsval :=
  match m with
  | [] => undefined
  | kv :: m' =>
      match member key m' with
      | Some v => Some v
      | None => if String.eqb kv.1 key then Some kv.2 else undefined
      end
  end.

(** What is thrown, and what a promise is rejected with. *)
Inductive Exn : Type :=
| Error (message : string)   (* [new Error(message)] *)
| SyntaxError                (* [JSON.parse] on a text that is not JSON *)
| TypeError                  (* a property read on [null] or [undefined] *)
| Reason (reason : string)   (* [reject('...')] with a bare string *)
| Failure (tag : string).    (* a collaborator failed: network, body, opener, decoder *)

(** How an expression or an awaited promise ends. *)
Inductive Completion (A : Type) : Type :=
| Normal (a : A)
| Throw (e : Exn).
Arguments Normal {A} a.
Arguments Throw {A} e.

(** [v.key] for the keys this service reads ([id], [refreshToken],
    [access_token], [refresh_token], [user], [waitlistPosition]): a
    member of an object, [undefined] on any other value that has
    properties, a [TypeError] on [null]. *)
Definition prop (v : json) (key : string) : Completion jsval :=
  match v with
  | JNull => Throw TypeError
  | JObj m => Normal (member key m)
  | _ => Normal undefined
  end.

(** The own properties that a spread [{...v}] copies.  The indices of a
    string or an array are left out: nothing here reads them. *)
Definition own_members (v : json) : list (string * json) :=
  match v with
  | JObj m => m
  | _ => []
  end.

Definition truthy (v : json) : bool :=
  match v with
  | JNull => false
  | JBool b => b
  | JNum n => negb (n =? 0)%Z
  | JDec _ _ _ => true
  | JStr s => negb (String.eqb s EmptyString)
  | JArr _ | JObj _ => true
  end.

Definition JSON_parse_throws (text : string) : Completion json :=
  match JSON_parse text with
  | Some v => Normal v
  | None => Throw SyntaxError
  end.

(** An object literal as [JSON.stringify] sees it: a property whose
    value is [undefined] is skipped. *)
Definition object_literal (fields : list (string * jsval)) : json :=
  JObj (omap (λ kv, pair kv.1 <$> kv.2) fields).

(** ** The data of the service *)

(** [CSAuthenticationSession].  Its declaration is not among the
    sources; the fields are those of the two object literals that build
    one.  A field holds what the run-time value holds. *)
Record CSAuthenticationSession : Type := {
  id : jsval;
  accessToken : jsval;
  refreshToken : jsval;
  account : jsval;
  waitlistPosition : jsval;
}.

(** The session as the object that [JSON.stringify] prints. *)
Definition session_object (s : CSAuthenticationSession) : json :=
  object_literal
    [("id", id s); ("accessToken", accessToken s);
     ("refreshToken", refreshToken s); ("account", account s);
     ("waitlistPosition", waitlistPosition s)].

(** A parsed value read as a session: the five properties it is asked
    for. *)
Definition as_session (v : json) : CSAuthenticationSession :=
  let m := own_members v in
  {| id := member "id" m;
     accessToken := member "accessToken" m;
     refreshToken := member "refreshToken" m;
     account := member "account" m;
     waitlistPosition := member "waitlistPosition" m |}.

(** The two requests the service sends. *)
Inductive Request : Type :=
| POST_auth_refresh (base : string) (body : string)
    (* POST [{base}/v1/auth/refresh], a JSON body *)
| GET_users_me (base : string) (bearer : jsval).
    (* GET [{base}/v1/users/me], [Authorization: Bearer ${bearer}] *)

Record Response : Type := {
  ok : bool;
  body : Completion string;   (* what [text()] and [json()] read *)
}.

(** Both notifications are [Severity.Error] with
    [NotificationPriority.URGENT]. *)
Inductive Notification : Type :=
| Failed_to_authenticate
| On_the_waitlist (position : jsval).

Record URI : Type := {
  path : string;
  query : string;
}.

(** What the service does to its collaborators. *)
Inductive Effect : Type :=
| Fetched (request : Request)
| Notified (n : Notification)
| Opened (url : string)
| Progress (title : string)
| HandlerRegistered
| HandlerDisposed
| Fired (session : CSAuthenticationSession).   (* [_onDidAuthenticate.fire] *)

(** The fields of the service, the secret storage, and the effects so
    far, oldest first. *)
Record State : Type := {
  _subscriptionsAPIBase : string;
  _websiteBase : string;
  _pendingStates : list string;
  _session : option CSAuthenticationSession;
  secrets : gmap string string;
  effects : list Effect;
}.

(** The first arm of the race in [login] to settle. *)
Inductive RaceEvent : Type :=
| CallbackArrives (uri : URI)   (* the URL service hands [uri] to the handler *)
| TimeoutElapses                (* the 60 s timer *)
| UserCancels.                  (* the progress notification is dismissed *)

(** The answers of the collaborators during one call. *)
Record Env : Type := {
  fetch : Request → Completion Response;
  stateId_uuid : string;          (* [generateUuid()] in [login] *)
  sessionId_uuid : string;        (* [generateUuid()] in [createSession] *)
  opener : string → Completion bool;
  settles : RaceEvent;
  decodeBase64 : string → Completion string;
    (* [decodeBase64(s).toString()]; the decoder is not among the sources *)
  coerced_positive : json → bool;
    (* whether a string, array or object is [> 0] after ToNumber, which
       is floating point *)
}.

(** ** The monad of a method: it reads the environment, changes the
    state, and returns or throws. *)

Definition M (A : Type) : Type := Env → State → State * Completion A.

Definition ret {A} (a : A) : M A := λ _ st, (st, Normal a).

Definition throw {A} (e : Exn) : M A := λ _ st, (st, Throw e).

Definition bind {A B} (m : M A) (k : A → M B) : M B :=
  λ env st,
    match m env st with
    | (st', Normal a) => k a env st'
    | (st', Throw e) => (st', Throw e)
    end.

#[global] Instance M_ret : MRet M := @ret.
#[global] Instance M_bind : MBind M := λ A B k m, bind m k.

(** [await] of a promise that has settled; also a plain expression that
    may throw. *)
Definition await {A} (c : Completion A) : M A := λ _ st, (st, c).

Definition gets {A} (f : State → A) : M A := λ _ st, (st, Normal (f st)).
Definition asks {A} (f : Env → A) : M A := λ env st, (st, Normal (f env)).
Definition modify (f : State → State) : M unit := λ _ st, (f st, Normal tt).

(** [try { m } catch (e) { handler e }] *)
Definition try_catch {A} (m : M A) (handler : Exn → M A) : M A :=
  λ env st,
    match m env st with
    | (st', Normal a) => (st', Normal a)
    | (st', Throw e) => handler e env st'
    end.

(** [try { m } finally { cleanup }] *)
Definition try_finally {A} (m : M A) (cleanup : M unit) : M A :=
  λ env st,
    match m env st with
    | (st', r) =>
        match cleanup env st' with
        | (st'', Normal _) => (st'', r)
        | (st'', Throw e) => (st'', Throw e)
        end
    end.

Definition set_pendingStates (l : list string) (st : State) : State :=
  {| _subscriptionsAPIBase := _subscriptionsAPIBase st;
     _websiteBase := _websiteBase st;
     _pendingStates := l;
     _session := _session st;
     secrets := secrets st;
     effects := effects st |}.

Definition set_session (s : option CSAuthenticationSession) (st : State) : State :=
  {| _subscriptionsAPIBase := _subscriptionsAPIBase st;
     _websiteBase := _websiteBase st;
     _pendingStates := _pendingStates st;
     _session := s;
     secrets := secrets st;
     effects := effects st |}.

Definition set_secrets (m : gmap string string) (st : State) : State :=
  {| _subscriptionsAPIBase := _subscriptionsAPIBase st;
     _websiteBase := _websiteBase st;
     _pendingStates := _pendingStates st;
     _session := _session st;
     secrets := m;
     effects := effects st |}.

Definition set_effects (l : list Effect) (st : State) : State :=
  {| _subscriptionsAPIBase := _subscriptionsAPIBase st;
     _websiteBase := _websiteBase st;
     _pendingStates := _pendingStates st;
     _session := _session st;
     secrets := secrets st;
     effects := l |}.

Definition emit (e : Effect) : M unit :=
  modify (λ st, set_effects (effects st ++ [e]) st).

(** ** The collaborators *)

(** Modelled from the spec: the secret storage ([ISecretStorageService]
    is not among the sources), "get/set/delete by key", each an atomic
    operation on one key that does not fail. *)
Definition secretStorageService_get (key : string) : M (option string) :=
  gets (λ st, secrets st !! key).

Definition secretStorageService_set (key value : string) : M unit :=
  modify (λ st, set_secrets (<[key := value]> (secrets st)) st).

Definition secretStorageService_delete (key : string) : M unit :=
  modify (λ st, set_secrets (delete key (secrets st)) st).

Definition do_fetch (request : Request) : M Response :=
  emit (Fetched request);;
  answer ← asks fetch;
  await (answer request).

(** [response.json()] *)
Definition Response_json (response : Response) : M json :=
  text ← await (body response);
  await (JSON_parse_throws text).

(** [this._session], about to have a property read. *)
Definition this_session : M CSAuthenticationSession :=
  s ← gets _session;
  match s with
  | Some session => ret session
  | None => throw TypeError
  end.

(** ** [URLSearchParams] *)

Fixpoint split_on (sep : ascii) (s : string) : list string :=
  match s with
  | EmptyString => [EmptyString]
  | String c s' =>
      if Ascii.eqb c sep then EmptyString :: split_on sep s'
      else
        match split_on sep s' with
        | piece :: pieces => String c piece :: pieces
        | [] => [String c EmptyString]
        end
  end.

(** The name before the first [=] and the value after it. *)
Fixpoint split_pair (s : string) : string * string :=
  match s with
  | EmptyString => (EmptyString, EmptyString)
  | String c s' =>
      if Ascii.eqb c "=" then (EmptyString, s')
      else let '(name, value) := split_pair s' in (String c name, value)
  end.

Definition hex2 (h1 h2 : ascii) : option N :=
  a ← hex_value h1; b ← hex_value h2; Some (a * 16 + b)%N.

(** [+] is a space and [%XX] is a byte. *)
Fixpoint form_decode (s : string) : string :=
  match s with
  | EmptyString => EmptyString
  | String c s1 =>
      if Ascii.eqb c "%" then
        match s1 with
        | String h1 (String h2 s2) =>
            match hex2 h1 h2 with
            | Some n => String (ascii_of_N n) (form_decode s2)
            | None => String c (form_decode s1)
            end
        | _ => String c (form_decode s1)
        end
      else String (if Ascii.eqb c "+" then " "%char else c) (form_decode s1)
  end.

(** [new URLSearchParams(init)]: the decoded pairs, in order. *)
Definition URLSearchParams (init : string) : list (string * string) :=
  let init := match peek "?" init with Some s => s | None => init end in
  (λ piece, let '(name, value) := split_pair piece in
            (form_decode name, form_decode value))
    <$> filter (λ piece, piece ≠ EmptyString) (split_on "&" init).

(** [params.get(name)]: the first value under [name], or [null]. *)
Fixpoint URLSearchParams_get (params : list (string * string)) (name : string)
    : option string :=
  match params with
  | [] => None
  | (n, v) :: params' =>
      if String.eqb n name then Some v else URLSearchParams_get params' name
  end.

(** ** [CSAuthenticationService] *)

Definition SESSION_SECRET_KEY : string := "codestory.auth.session".

Definition setSession (session : CSAuthenticationSession) : M unit :=
  modify (set_session (Some session));;
  secretStorageService_set SESSION_SECRET_KEY
    (JSON_stringify (session_object session)).

Definition deleteSession : M unit :=
  secretStorageService_delete SESSION_SECRET_KEY.

Definition getSession : M jsval :=
  session ← secretStorageService_get SESSION_SECRET_KEY;
  match session with
  | Some text =>
      if String.eqb text EmptyString then ret undefined
      else v ← await (JSON_parse_throws text); ret (Some v)
  | None => ret undefined
  end.

Definition Failed_to_authenticate_message : string :=
  "Failed to authenticate with CodeStory. Please try logging in again.".

(** [POST {base}/v1/auth/refresh] with the body
    [{refresh_token: this._session.refreshToken}]. *)
Definition refresh_request (base : string) (session : CSAuthenticationSession)
    : Request :=
  POST_auth_refresh base
    (JSON_stringify (object_literal [("refresh_token", refreshToken session)])).

(** The body of the [try] in [refreshTokens]. *)
Definition refreshTokens_try : M unit :=
  base ← gets _subscriptionsAPIBase;
  session ← this_session;
  response ← do_fetch (refresh_request base session);
  if negb (ok response) then
    emit (Notified Failed_to_authenticate);;
    deleteSession;;
    throw (Error Failed_to_authenticate_message)
  else
    data ← Response_json response;
    bearer ← await (prop data "access_token");
    resp ← do_fetch (GET_users_me base bearer);
    text ← await (body resp);
    userProfile ← await (JSON_parse_throws text);
    session ← this_session;
    access_token ← await (prop data "access_token");
    refresh_token ← await (prop data "refresh_token");
    user ← await (prop userProfile "user");
    position ← await (prop userProfile "waitlistPosition");
    setSession {| id := id session;
                  accessToken := access_token;
                  refreshToken := refresh_token;
                  account := user;
                  waitlistPosition := position |}.

Definition refreshTokens : M unit :=
  s ← gets _session;
  match s with
  | None => ret tt
  | Some _ => try_catch refreshTokens_try (λ _, ret tt)
  end.

Definition initialize : M unit :=
  session ← secretStorageService_get SESSION_SECRET_KEY;
  parsed ← match session with
           | Some text =>
               if String.eqb text EmptyString then ret None
               else
                 v ← await (JSON_parse_throws text);
                 ret (if truthy v then Some (as_session v) else None)
           | None => ret None
           end;
  modify (set_session parsed);;
  refreshTokens.

Definition handleUri (uri : URI) : M string :=
  let query := URLSearchParams (query uri) in
  match URLSearchParams_get query "data" with
  | Some encodedData =>
      if String.eqb encodedData EmptyString then ret EmptyString else ret encodedData
  | None => ret EmptyString
  end.

(** The handler given to [urlService.registerHandler], run on [uri]:
    what it settles [loginPromise] with, and the boolean it returns. *)
Definition handleURL (uri : URI) : M (Completion string * bool) :=
  try_catch
    (tokenData ← handleUri uri;
     emit HandlerDisposed;;
     ret (Normal tokenData, true))
    (λ e, ret (Throw e, false)).

(** [await Promise.race([loginPromise, timeoutPromise,
    cancellationPromise])], given the arm that settles first. *)
Definition race (event : RaceEvent) : M string :=
  match event with
  | CallbackArrives uri => settled ← handleURL uri; await settled.1
  | TimeoutElapses => throw (Reason "Cancelled")
  | UserCancels => throw (Reason "User Cancelled")
  end.

(** The task of [login], with what happens while the race is pending
    ([racing]) left open: anything may run in between. *)
Definition login_task (racing : M string) : M string :=
  stateId ← asks stateId_uuid;
  modify (λ st, set_pendingStates (_pendingStates st ++ [stateId]) st);;
  base ← gets _websiteBase;
  let url := base +:+ "/authenticate?state=" +:+ stateId in
  emit (Opened url);;
  opens ← asks opener;
  await (opens url);;
  try_finally
    (emit HandlerRegistered;; racing)
    (modify (λ st,
       set_pendingStates (filter (λ n, n ≠ stateId) (_pendingStates st)) st)).

Definition login : M string :=
  emit (Progress "Signing in to CodeStory...");;
  event ← asks settles;
  login_task (race event).

Definition getUserInfo (encodedTokenData : string) : M json :=
  decode ← asks decodeBase64;
  tokenData ← await (decode encodedTokenData);
  tokens ← await (JSON_parse_throws tokenData);
  base ← gets _subscriptionsAPIBase;
  bearer ← await (prop tokens "access_token");
  resp ← do_fetch (GET_users_me base bearer);
  text ← await (body resp);
  data ← await (JSON_parse_throws text);
  ret (JObj (own_members data ++ own_members tokens)).

Definition notifyWaitlistPosition (position : jsval) : M unit :=
  emit (Notified (On_the_waitlist position)).

(** [v > 0] *)
Definition greater_than_zero (v : jsval) : M bool :=
  match v with
  | None | Some JNull => ret false
  | Some (JBool b) => ret b
  | Some (JNum n) => ret (0 <? n)%Z
  | Some (JDec negative _ _) => ret (negb negative)
  | Some v => coerced ← asks coerced_positive; ret (coerced v)
  end.

Definition createSession : M CSAuthenticationSession :=
  try_catch
    (encodedTokenData ← login;
     if String.eqb encodedTokenData EmptyString then throw (Error "CodeStory login failure")
     else
       userInfo ← getUserInfo encodedTokenData;
       let user := member "user" (own_members userInfo) in
       let access_token := member "access_token" (own_members userInfo) in
       let refresh_token := member "refresh_token" (own_members userInfo) in
       let position := member "waitlistPosition" (own_members userInfo) in
       waitlisted ← greater_than_zero position;
       (if waitlisted : bool then notifyWaitlistPosition position else ret tt);;
       sessionId ← asks sessionId_uuid;
       let session := {| id := Some (JStr sessionId);
                         accessToken := access_token;
                         refreshToken := refresh_token;
                         account := user;
                         waitlistPosition := position |} in
       emit (Fired session);;
       setSession session;;
       ret session)
    (λ e, throw e).

(** The state the constructor leaves, before [initialize] runs. *)
Definition constructed (isBuilt isExtensionDevelopment : bool)
    (stored : gmap string string) : State :=
  let isDevelopment := negb isBuilt || isExtensionDevelopment in
  {| _subscriptionsAPIBase :=
       if isDevelopment then "https://staging-api.codestory.ai"
       else "https://api.codestory.ai";
     _websiteBase :=
       if isDevelopment then "https://staging.aide.dev" else "https://aide.dev";
     _pendingStates := [];
     _session := None;
     secrets := stored;
     effects := [] |}.

(** The sessions that were handed to [_onDidAuthenticate.fire]. *)
Definition fired (st : State) : list CSAuthenticationSession :=
  omap (λ e, match e with Fired s => Some s | _ => None end) (effects st).

(** A computation that never fires the event. *)
Definition silent {A} (m : M A) : Prop :=
  ∀ env st, fired (m env st).1 = fired st.

(** The requests that went out. *)
Definition requests (st : State) : list Request :=
  omap (λ e, match e with Fetched r => Some r | _ => None end) (effects st).

(** The profile request of [refreshTokens] fails: the fetch rejects, the
    body cannot be read, or its text is not JSON or is [null], which has
    no [user] to read. *)
Definition profile_fails (env : Env) (request : Request) : Prop :=
  match fetch env request with
  | Throw _ => True
  | Normal resp =>
      match body resp with
      | Throw _ => True
      | Normal text => JSON_parse text = None ∨ JSON_parse text = Some JNull
      end
  end.

(** ** A scenario

    The stored session [{id: "a", refreshToken: "r1", ...}], the token
    pair [{access_token: "A2", refresh_token: "r2"}] and a profile, with
    environments that answer with them or fail. *)

(** A base64 decoder (RFC 4648, both alphabets, stopping at the
    padding), to stand for the one the service imports. *)
Definition base64_value (c : ascii) : option N :=
  let n := N_of_ascii c in
  if (65 <=? n)%N && (n <=? 90)%N then Some (n - 65)%N
  else if (97 <=? n)%N && (n <=? 122)%N then Some (n - 71)%N
  else if (48 <=? n)%N && (n <=? 57)%N then Some (n + 4)%N
  else if (n =? 43)%N || (n =? 45)%N then Some 62%N
  else if (n =? 47)%N || (n =? 95)%N then Some 63%N
  else None.

Fixpoint base64_sextets (s : string) : option (list N) :=
  match s with
  | EmptyString => Some []
  | String c s' =>
      if Ascii.eqb c "=" then Some []
      else v ← base64_value c; l ← base64_sextets s'; Some (v :: l)
  end.

Fixpoint base64_bytes (l : list N) : string :=
  match l with
  | a :: b :: c :: d :: l' =>
      String (ascii_of_N (a * 4 + b / 16))
        (String (ascii_of_N ((b mod 16) * 16 + c / 4))
          (String (ascii_of_N ((c mod 4) * 64 + d)) (base64_bytes l')))
  | [a; b; c] =>
      String (ascii_of_N (a * 4 + b / 16))
        (String (ascii_of_N ((b mod 16) * 16 + c / 4)) EmptyString)
  | [a; b] => String (ascii_of_N (a * 4 + b / 16)) EmptyString
  | _ => EmptyString
  end.

Definition base64_decode (s : string) : Completion string :=
  match base64_sextets s with
  | Some l => Normal (base64_bytes l)
  | None => Throw SyntaxError
  end.

Definition session_a : CSAuthenticationSession :=
  {| id := Some (JStr "a");
     accessToken := Some (JStr "A1");
     refreshToken := Some (JStr "r1");
     account := Some (JObj [("email", JStr "dev@example.com")]);
     waitlistPosition := Some (JNum 0) |}.

Definition state_a : State :=
  set_secrets {[ SESSION_SECRET_KEY := JSON_stringify (session_object session_a) ]}
    (set_session (Some session_a) (constructed true false ∅)).

Definition tokens_2 : json :=
  JObj [("access_token", JStr "A2"); ("refresh_token", JStr "r2")].

Definition profile_2 : json :=
  JObj [("user", JObj [("email", JStr "dev@example.com")]);
        ("waitlistPosition", JNum 0)].

Definition answer (status_ok : bool) (v : json) : Completion Response :=
  Normal {| ok := status_ok; body := Normal (JSON_stringify v) |}.

Definition scenario (refresh profile : Completion Response) (event : RaceEvent)
    : Env :=
  {| fetch := λ request,
       match request with
       | POST_auth_refresh _ _ => refresh
       | GET_users_me _ _ => profile
       end;
     stateId_uuid := "state-1";
     sessionId_uuid := "session-1";
     opener := λ _, Normal true;
     settles := event;
     decodeBase64 := base64_decode;
     coerced_positive := λ _, false |}.

(** The callback [/authenticate-codestory?<query>]. *)
Definition callback (query : string) : URI :=
  {| path := "/authenticate-codestory"; query := query |}.

(** [tokens_2] in base64. *)
Definition payload_2 : string :=
  "eyJhY2Nlc3NfdG9rZW4iOiJBMiIsInJlZnJlc2hfdG9rZW4iOiJyMiJ9".

(** Both endpoints answer. *)
Definition env_refreshed : Env :=
  scenario (answer true tokens_2) (answer true profile_2) TimeoutElapses.

(** The refresh endpoint answers 401. *)
Definition env_rejected : Env :=
  scenario (answer false (JObj [("error", JStr "invalid_grant")]))
    (answer true profile_2) TimeoutElapses.

(** The refresh endpoint answers, the profile request rejects. *)
Definition env_profile_down : Env :=
  scenario (answer true tokens_2) (Throw (Failure "network")) TimeoutElapses.

(** Both endpoints answer and the callback with [query] arrives. *)
Definition env_callback (query : string) : Env :=
  scenario (answer true tokens_2) (answer true profile_2)
    (CallbackArrives (callback query)).

(** [session_a] after the refresh of [env_refreshed]. *)
Definition session_a2 : CSAuthenticationSession :=
  {| id := Some (JStr "a");
     accessToken := Some (JStr "A2");
     refreshToken := Some (JStr "r2");
     account := Some (JObj [("email", JStr "dev@example.com")]);
     waitlistPosition := Some (JNum 0) |}.

(** Both endpoints answer and the user dismisses the progress
    notification. *)
Definition env_cancelled : Env :=
  scenario (answer true tokens_2) (answer true profile_2) UserCancels.

(** The session that [createSession] builds from [payload_2]. *)
Definition session_1 : CSAuthenticationSession :=
  {| id := Some (JStr "session-1");
     accessToken := Some (JStr "A2");
     refreshToken := Some (JStr "r2");
     account := Some (JObj [("email", JStr "dev@example.com")]);
     waitlistPosition := Some (JNum 0) |}.

(** ** [InlineEdit] *)

Module InlineEdit.
Section InlineEdit.
(** [SingleTextEdit] and its [equals], [Command] and
    [InlineCompletionItem] are declared outside the sources: they are
    parameters.  An [InlineCompletionItem] is an object, known by its
    identity, which is what [===] compares. *)
Context {SingleTextEdit Command InlineCompletionItem : Type}.
Context `{EqDecision InlineCompletionItem}.
Variable SingleTextEdit_equals : SingleTextEdit → SingleTextEdit → bool.

Record InlineEdit : Type := {
  edit : SingleTextEdit;
  isCollapsed : bool;
  renderExplicitly : bool;
  commands : list Command;
  inlineCompletion : InlineCompletionItem;
}.

Definition equals (this other : InlineEdit) : bool :=
  SingleTextEdit_equals (edit this) (edit other)
  && Bool.eqb (isCollapsed this) (isCollapsed other)
  && Bool.eqb (renderExplicitly this) (renderExplicitly other)
  && bool_decide (inlineCompletion this = inlineCompletion other).
End InlineEdit.
Arguments InlineEdit : clear implicits.
End InlineEdit.

(** ** What a method leaves alone *)

(** A computation that leaves the part [f] of the state as it was,
    however it ends. *)
Definition preserves {X A} (f : State → X) (m : M A) : Prop :=
  ∀ env st, f (m env st).1 = f st.

(** A part of the state that does not depend on the effects. *)
Definition effect_free {X} (f : State → X) : Prop :=
  ∀ l st, f (set_effects l st) = f st.



(** The refresh request of [refreshTokens] gets no token pair: the fetch
    rejects, or the status is a success and the body cannot be read, is
    not JSON, or is [null]. *)
Definition refresh_unreadable (env : Env) (request : Request) : Prop :=
  match fetch env request with
  | Throw _ => True
  | Normal response =>
      ok response = true
      ∧ match body response with
        | Throw _ => True
        | Normal text => JSON_parse text = None ∨ JSON_parse text = Some JNull
        end
  end.

(** A text that a query string carries as it is: no [&], [%] or [+]. *)
Fixpoint plain (s : string) : bool :=
  match s with
  | EmptyString => true
  | String c s' =>
      negb (Ascii.eqb c "&" || Ascii.eqb c "%" || Ascii.eqb c "+") && plain s'
  end.

(** ** Further scenarios *)

(** The refresh request rejects. *)
Definition env_refresh_down : Env :=
  scenario (Throw (Failure "network")) (answer true profile_2) TimeoutElapses.

(** No browser: the opener rejects. *)
Definition env_no_browser : Env :=
  {| fetch := fetch env_refreshed;
     stateId_uuid := stateId_uuid env_refreshed;
     sessionId_uuid := sessionId_uuid env_refreshed;
     opener := λ _, Throw (Failure "no browser");
     settles := settles env_refreshed;
     decodeBase64 := decodeBase64 env_refreshed;
     coerced_positive := coerced_positive env_refreshed |}.




(** A secret storage whose entry is not JSON. *)
Definition state_corrupt : State :=
  constructed true false {[ SESSION_SECRET_KEY := "{" ]}.

(** ** The widget that edits a model configuration

    [EditModelConfigurationWidget]: [add], [edit], [registerProviders],
    [hide] and [save].  The DOM nodes are collaborators; of them the
    model keeps what the user is told: whether the widget is displayed,
    what the provider select box was given, whether the save button is
    enabled, and the message area.  The listeners that the widget
    registers on its fields run later, on the user's input; they are
    not part of these functions, and one method runs at a time: nothing
    else happens while [save] awaits a service.  The records of the
    model-selection service are not among the sources: their fields are
    the ones this code reads. *)

Module Widgets.

(** [currentMode: 'edit' | 'add'] *)
Inductive Mode : Type := mode_edit | mode_add.

(** What [save] writes into the message area. *)
Inductive Message : Type :=
| IncompleteProviderConfiguration (providerName : string)
| IncompleteConfiguration
| CantEditDefaultModel (modelName : string)
| ModelIdTaken (modelName : string)
| ModelConfigError (error : string).

(** An option of the provider select box. *)
Record ISelectOptionItem : Type := {
  text : string;
  decoratorRight : string;
  isDisabled : bool;
}.

Record IProviderItem : Type := {
  provider_type : string;
  provider_name : string;
  provider_fields : list (string * string);   (* the keys other than type and name *)
}.

Record ModelProviderConfig : Type := {
  type : string;
  deploymentID : option string;
}.

(** [Array.prototype.findIndex] *)
Fixpoint findIndex {A} (f : A → bool) (l : list A) : Z :=
  match l with
  | [] => -1
  | x :: l =>
      if f x then 0
      else let i := findIndex f l in if (i <? 0)%Z then -1 else (i + 1)%Z
  end.

Section Widgets.
(** The numbers of the host and the rest of the model-selection
    settings are parameters. *)
Context {Number Rest : Type}.

(** [entry.modelItem].  [provider] may be [undefined]: [add] takes it
    from a [find] behind an unchecked [!]. *)
Record ModelItem : Type := {
  key : string;
  name : string;
  contextLength : Number;
  temperature : Number;
  providerConfig : ModelProviderConfig;
  provider : option IProviderItem;
}.

Record IModelItemEntry : Type := { modelItem : ModelItem }.

(** The item that [save] hands to the editing service. *)
Record LanguageModelItem : Type := {
  lm_name : string;
  lm_contextLength : Number;
  lm_temperature : Number;
  lm_provider : ModelProviderConfig;
}.

Record Settings : Type := {
  slowModel : string;
  settings_rest : Rest;
}.

(** The calls to the two services, in order. *)
Inductive Call : Type :=
| CheckIfModelIdIsTaken (modelId : string)
| GetValidatedModelSelectionSettings
| ValidateModelConfiguration (settings : Settings)
| EditModelSelection (selection : string) (modelKey : string)
| AddModelConfiguration (modelKey : string) (item : LanguageModelItem)
| UpdateModelConfigurationKey (oldKey newKey : string)
| EditModelConfiguration (modelKey : string) (item : LanguageModelItem).

(** The fields of the widget, and the calls it made so far. *)
Record Widget : Type := {
  _isVisible : bool;
  initialModelItemEntry : option IModelItemEntry;
  modelItemEntry : option IModelItemEntry;
  currentMode : Mode;
  displayed : bool;               (* [_domNode.setDisplay('block' | 'none')] *)
  providerValue_options : list ISelectOptionItem;
  providerValue_select : Z;       (* the index last given to [select] *)
  saveButton_enabled : bool;
  messageArea : option Message;   (* [messageArea.textContent], once written *)
  onHide_fired : nat;             (* how often [_onHide.fire()] ran *)
  calls : list Call;
}.

(** The functions and services the widget imports.  A service answers
    in view of the calls made before.  [isProviderItemConfigComplete]
    may be handed [undefined], so it may throw; [takenModel] is read
    only when the id is taken, and is an object then. *)
Record Services : Type := {
  equals : ModelItem → ModelItem → bool;
  isProviderItemConfigComplete : option IProviderItem → Completion bool;
  isModelItemConfigComplete : ModelItem → bool;
  checkIfDefaultModel : string → bool;
  defaultModels : string → option string;
    (* [defaultModelSelectionSettings.models[key].name] *)
  checkIfModelIdIsTaken : list Call → string → Completion (bool * string);
    (* [isModelIdTaken] and [takenModel.name] *)
  getValidatedModelSelectionSettings : list Call → Completion Settings;
  validateModelConfiguration
    : list Call → Settings → Completion (bool * option string);
    (* [valid] and [error] *)
  editing : list Call → Call → Completion unit;
    (* the four calls of the editing service *)
}.

Definition W (A : Type) : Type := Services → Widget → Widget * Completion A.

Definition wret {A} (a : A) : W A := λ _ w, (w, Normal a).
Definition wthrow {A} (e : Exn) : W A := λ _ w, (w, Throw e).
Definition wbind {A B} (m : W A) (k : A → W B) : W B :=
  λ sv w,
    match m sv w with
    | (w', Normal a) => k a sv w'
    | (w', Throw e) => (w', Throw e)
    end.

#[global] Instance W_ret : MRet W := @wret.
#[global] Instance W_bind : MBind W := λ A B k m, wbind m k.

Definition wgets {A} (f : Widget → A) : W A := λ _ w, (w, Normal (f w)).
Definition wmodify (f : Widget → Widget) : W unit := λ _ w, (f w, Normal tt).
(** A function the widget imports: it sees no state. *)
Definition imported {A} (f : Services → Completion A) : W A := λ sv w, (w, f sv).

(** A call of a service: it is recorded, and answered in view of the
    calls before it. *)
Definition call {A} (c : Call)
    (answer : Services → list Call → Completion A) : W A :=
  λ sv w,
    ({| _isVisible := _isVisible w;
        initialModelItemEntry := initialModelItemEntry w;
        modelItemEntry := modelItemEntry w;
        currentMode := currentMode w;
        displayed := displayed w;
        providerValue_options := providerValue_options w;
        providerValue_select := providerValue_select w;
        saveButton_enabled := saveButton_enabled w;
        messageArea := messageArea w;
        onHide_fired := onHide_fired w;
        calls := calls w ++ [c] |},
     answer sv (calls w)).

Definition set_saveButton_enabled (b : bool) (w : Widget) : Widget :=
  {| _isVisible := _isVisible w;
     initialModelItemEntry := initialModelItemEntry w;
     modelItemEntry := modelItemEntry w;
     currentMode := currentMode w;
     displayed := displayed w;
     providerValue_options := providerValue_options w;
     providerValue_select := providerValue_select w;
     saveButton_enabled := b;
     messageArea := messageArea w;
     onHide_fired := onHide_fired w;
     calls := calls w |}.

Definition set_messageArea (m : Message) (w : Widget) : Widget :=
  {| _isVisible := _isVisible w;
     initialModelItemEntry := initialModelItemEntry w;
     modelItemEntry := modelItemEntry w;
     currentMode := currentMode w;
     displayed := displayed w;
     providerValue_options := providerValue_options w;
     providerValue_select := providerValue_select w;
     saveButton_enabled := saveButton_enabled w;
     messageArea := Some m;
     onHide_fired := onHide_fired w;
     calls := calls w |}.

Definition set_currentMode (mode : Mode) (w : Widget) : Widget :=
  {| _isVisible := _isVisible w;
     initialModelItemEntry := initialModelItemEntry w;
     modelItemEntry := modelItemEntry w;
     currentMode := mode;
     displayed := displayed w;
     providerValue_options := providerValue_options w;
     providerValue_select := providerValue_select w;
     saveButton_enabled := saveButton_enabled w;
     messageArea := messageArea w;
     onHide_fired := onHide_fired w;
     calls := calls w |}.

(** [providerValue.setOptions(options)] and [providerValue.select(index)] *)
Definition set_providerValue (options : list ISelectOptionItem) (index : Z)
    (w : Widget) : Widget :=
  {| _isVisible := _isVisible w;
     initialModelItemEntry := initialModelItemEntry w;
     modelItemEntry := modelItemEntry w;
     currentMode := currentMode w;
     displayed := displayed w;
     providerValue_options := options;
     providerValue_select := index;
     saveButton_enabled := saveButton_enabled w;
     messageArea := messageArea w;
     onHide_fired := onHide_fired w;
     calls := calls w |}.

(** The first assignments of [add] and [edit] on a widget that is not
    visible. *)
Definition show (entry : IModelItemEntry) (w : Widget) : Widget :=
  {| _isVisible := true;
     initialModelItemEntry := Some entry;
     modelItemEntry := Some entry;
     currentMode := currentMode w;
     displayed := true;
     providerValue_options := providerValue_options w;
     providerValue_select := providerValue_select w;
     saveButton_enabled := saveButton_enabled w;
     messageArea := messageArea w;
     onHide_fired := onHide_fired w;
     calls := calls w |}.

Definition hide : W unit :=
  wmodify (λ w,
    {| _isVisible := false;
       initialModelItemEntry := initialModelItemEntry w;
       modelItemEntry := modelItemEntry w;
       currentMode := currentMode w;
       displayed := false;
       providerValue_options := providerValue_options w;
       providerValue_select := providerValue_select w;
       saveButton_enabled := true;
       messageArea := messageArea w;
       onHide_fired := S (onHide_fired w);
       calls := calls w |}).

(** [providers.map(f)], with an [f] that may throw *)
Fixpoint wmap {A B} (f : A → W B) (l : list A) : W (list B) :=
  match l with
  | [] => wret []
  | x :: l => y ← f x; ys ← wmap f l; wret (y :: ys)
  end.

Definition registerProviders (providers : list IProviderItem)
    (defaultProviderName : string) : W unit :=
  options ←
    wmap (λ providerItem,
            isProviderConfigComplete ←
              imported (λ sv, isProviderItemConfigComplete sv (Some providerItem));
            wret {| text := provider_name providerItem;
                    decoratorRight :=
                      if isProviderConfigComplete : bool
                      then EmptyString else "Not configured";
                    isDisabled := negb isProviderConfigComplete |})
      providers;
  wmodify (set_providerValue options
             (findIndex (λ provider,
                           String.eqb (provider_name provider) defaultProviderName)
                providers)).

(** [provider.name] of a provider that may be [undefined]: a
    [TypeError] then. *)
Definition name_of (p : option IProviderItem) : W string :=
  match p with
  | Some p => wret (provider_name p)
  | None => wthrow TypeError
  end.

(** [add] and [edit] return a promise that resolves at the next
    [hide]; the model runs their body.  The two numbers are the
    literals [128000] and [0.2]. *)
Definition add (n128000 n0_2 : Number) (providerItems : list IProviderItem)
    : W unit :=
  let defaultModelItemEntry :=
    {| modelItem :=
         {| key := EmptyString;
            name := EmptyString;
            contextLength := n128000;
            temperature := n0_2;
            providerConfig := {| type := "open-router"; deploymentID := None |};
            provider :=
              List.find (λ providerItem,
                           String.eqb (provider_name providerItem) "Open Router")
                providerItems |} |} in
  wmodify (set_currentMode mode_add);;
  visible ← wgets _isVisible;
  if visible : bool then wret tt
  else
    wmodify (show defaultModelItemEntry);;
    let validProviders :=
      List.filter (λ providerItem,
                     negb (String.eqb (provider_name providerItem) "CodeStory"))
        providerItems in
    registerProviders validProviders "Open Router".

Definition edit (entry : IModelItemEntry) (providerItems : list IProviderItem)
    : W unit :=
  wmodify (set_currentMode mode_edit);;
  visible ← wgets _isVisible;
  if visible : bool then wret tt
  else
    wmodify (show entry);;
    providerName ← name_of (provider (modelItem entry));
    registerProviders providerItems providerName.

Definition editing_call (c : Call) : W unit :=
  call c (λ sv log, editing sv log c).

(** [this.initialModelItemEntry!.modelItem] *)
Definition initial_modelItem : W ModelItem :=
  entry ← wgets initialModelItemEntry;
  match entry with
  | Some entry => wret (modelItem entry)
  | None => wthrow TypeError
  end.

(** The item that [save] builds from the edited one. *)
Definition lmItem_of (updatedModelItem : ModelItem) : LanguageModelItem :=
  {| lm_name := name updatedModelItem;
     lm_contextLength := contextLength updatedModelItem;
     lm_temperature := temperature updatedModelItem;
     lm_provider :=
       {| type := type (providerConfig updatedModelItem);
          deploymentID :=
            if String.eqb (type (providerConfig updatedModelItem)) "azure-openai"
            then deploymentID (providerConfig updatedModelItem)
            else None |} |}.

Definition save : W unit :=
  wmodify (set_saveButton_enabled false);;
  entry ← wgets modelItemEntry;
  match entry with
  | None => wret tt
  | Some entry =>
      initialModelItem ← initial_modelItem;
      let updatedModelItem := modelItem entry in
      isProviderComplete ←
        imported (λ sv, isProviderItemConfigComplete sv (provider updatedModelItem));
      if negb isProviderComplete then
        providerName ← name_of (provider updatedModelItem);
        wmodify (set_messageArea (IncompleteProviderConfiguration providerName));;
        wmodify (set_saveButton_enabled true)
      else
      isComplete ←
        imported (λ sv, Normal (isModelItemConfigComplete sv updatedModelItem));
      if negb isComplete then
        wmodify (set_messageArea IncompleteConfiguration);;
        wmodify (set_saveButton_enabled true)
      else
      isDefaultModelId ←
        imported (λ sv, Normal (checkIfDefaultModel sv (key updatedModelItem)));
      if isDefaultModelId : bool then
        takenDefaultModel ←
          imported (λ sv, match defaultModels sv (key updatedModelItem) with
                          | Some modelName => Normal modelName
                          | None => Throw TypeError
                          end);
        wmodify (set_messageArea (CantEditDefaultModel takenDefaultModel));;
        wmodify (set_saveButton_enabled true)
      else
      taken ← call (CheckIfModelIdIsTaken (key updatedModelItem))
                (λ sv log, checkIfModelIdIsTaken sv log (key updatedModelItem));
      if taken.1 && negb (String.eqb taken.2 (name initialModelItem)) then
        wmodify (set_messageArea (ModelIdTaken taken.2));;
        wmodify (set_saveButton_enabled true)
      else
      modelSelectionSettings ←
        call GetValidatedModelSelectionSettings
          (λ sv log, getValidatedModelSelectionSettings sv log);
      let previousSlowModel := slowModel modelSelectionSettings in
      editing_call (EditModelSelection "slowModel" (key updatedModelItem));;
      configValidation ←
        call (ValidateModelConfiguration modelSelectionSettings)
          (λ sv log, validateModelConfiguration sv log modelSelectionSettings);
      editing_call (EditModelSelection "slowModel" previousSlowModel);;
      if negb configValidation.1 then
        wmodify (set_messageArea
                   (ModelConfigError
                      (match configValidation.2 with
                       | Some error =>
                           if String.eqb error EmptyString
                           then "Invalid configuration" else error
                       | None => "Invalid configuration"
                       end)));;
        wmodify (set_saveButton_enabled true)
      else
      same ← imported (λ sv, Normal (equals sv initialModelItem updatedModelItem));
      if same : bool then hide
      else
        let lmItem := lmItem_of updatedModelItem in
        mode ← wgets currentMode;
        match mode with
        | mode_add =>
            editing_call (AddModelConfiguration (key updatedModelItem) lmItem)
        | mode_edit =>
            if negb (String.eqb (key initialModelItem) (key updatedModelItem)) then
              editing_call (UpdateModelConfigurationKey (key initialModelItem)
                              (key updatedModelItem));;
              editing_call (EditModelConfiguration (key updatedModelItem) lmItem)
            else
              editing_call (EditModelConfiguration (key updatedModelItem) lmItem)
        end;;
        editing_call (EditModelSelection "slowModel" (key updatedModelItem));;
        wmodify (set_saveButton_enabled true);;
        hide
  end.

(** The calls that change a model configuration. *)
Definition is_write (c : Call) : bool :=
  match c with
  | AddModelConfiguration _ _ | UpdateModelConfigurationKey _ _
  | EditModelConfiguration _ _ => true
  | _ => false
  end.

(** The slow model that a call selects. *)
Definition selects (c : Call) : option string :=
  match c with
  | EditModelSelection _ modelKey => Some modelKey
  | _ => None
  end.

(** The calls of a [save] that goes all the way, in order. *)
Definition protocol (mode : Mode) (initialModelItem updatedModelItem : ModelItem)
    (modelSelectionSettings : Settings) : list Call :=
  [ CheckIfModelIdIsTaken (key updatedModelItem);
    GetValidatedModelSelectionSettings;
    EditModelSelection "slowModel" (key updatedModelItem);
    ValidateModelConfiguration modelSelectionSettings;
    EditModelSelection "slowModel" (slowModel modelSelectionSettings) ]
  ++ match mode with
     | mode_add =>
         [ AddModelConfiguration (key updatedModelItem) (lmItem_of updatedModelItem) ]
     | mode_edit =>
         if String.eqb (key initialModelItem) (key updatedModelItem) then
           [ EditModelConfiguration (key updatedModelItem) (lmItem_of updatedModelItem) ]
         else
           [ UpdateModelConfigurationKey (key initialModelItem) (key updatedModelItem);
             EditModelConfiguration (key updatedModelItem) (lmItem_of updatedModelItem) ]
     end
  ++ [ EditModelSelection "slowModel" (key updatedModelItem) ].
End Widgets.

Arguments ModelItem : clear implicits.
Arguments IModelItemEntry : clear implicits.
Arguments LanguageModelItem : clear implicits.
Arguments Settings : clear implicits.
Arguments Call : clear implicits.
Arguments Widget : clear implicits.
Arguments Services : clear implicits.
Arguments W : clear implicits.

(** *** Scenarios

    Numbers are decimal: [(m, e)] is [m] times ten to the [e]. *)

Definition open_router : IProviderItem :=
  {| provider_type := "open-router";
     provider_name := "Open Router";
     provider_fields := [("apiKey", "sk-or-1")] |}.

Definition azure_openai : IProviderItem :=
  {| provider_type := "azure-openai";
     provider_name := "Azure OpenAI";
     provider_fields := [("apiBase", EmptyString); ("apiKey", EmptyString)] |}.

Definition codestory : IProviderItem :=
  {| provider_type := "codestory";
     provider_name := "CodeStory";
     provider_fields := [] |}.

Definition providerItems : list IProviderItem :=
  [codestory; azure_openai; open_router].

Definition item_stored : ModelItem (Z * Z) :=
  {| key := "my-model";
     name := "My model";
     contextLength := (16000, 0)%Z;
     temperature := (2, -1)%Z;
     providerConfig := {| type := "open-router"; deploymentID := None |};
     provider := Some open_router |}.

(** The stored item with another id typed in. *)
Definition item_renamed : ModelItem (Z * Z) :=
  {| key := "my-model-2";
     name := "My model";
     contextLength := (16000, 0)%Z;
     temperature := (2, -1)%Z;
     providerConfig := {| type := "open-router"; deploymentID := None |};
     provider := Some open_router |}.

(** The widget as its constructor leaves it. *)
Definition widget_closed : Widget (Z * Z) unit :=
  {| _isVisible := false;
     initialModelItemEntry := None;
     modelItemEntry := None;
     currentMode := mode_edit;
     displayed := false;
     providerValue_options := [];
     providerValue_select := 0;
     saveButton_enabled := true;
     messageArea := None;
     onHide_fired := 0;
     calls := [] |}.

(** The widget opened on the stored item, after the id was changed. *)
Definition widget_renaming : Widget (Z * Z) unit :=
  {| _isVisible := true;
     initialModelItemEntry := Some {| modelItem := item_stored |};
     modelItemEntry := Some {| modelItem := item_renamed |};
     currentMode := mode_edit;
     displayed := true;
     providerValue_options := [];
     providerValue_select := 0;
     saveButton_enabled := true;
     messageArea := None;
     onHide_fired := 0;
     calls := [] |}.

(** Services that accept every call and find the configuration valid.
    A provider is complete when none of its fields is empty, a model
    item when it has an id and a name; [Gpt4] is the one default
    model. *)
Definition services_accepting : Services (Z * Z) unit :=
  {| equals := λ a b,
       String.eqb (key a) (key b) && String.eqb (name a) (name b)
       && bool_decide (contextLength a = contextLength b)
       && bool_decide (temperature a = temperature b)
       && String.eqb (type (providerConfig a)) (type (providerConfig b));
     isProviderItemConfigComplete := λ p,
       match p with
       | Some p =>
           Normal (forallb (λ field, negb (String.eqb field.2 EmptyString))
                     (provider_fields p))
       | None => Throw TypeError
       end;
     isModelItemConfigComplete := λ item,
       negb (String.eqb (key item) EmptyString)
       && negb (String.eqb (name item) EmptyString);
     checkIfDefaultModel := λ modelId, String.eqb modelId "Gpt4";
     defaultModels := λ modelId,
       if String.eqb modelId "Gpt4" then Some "GPT-4" else None;
     checkIfModelIdIsTaken := λ _ _, Normal (false, EmptyString);
     getValidatedModelSelectionSettings := λ _,
       Normal {| slowModel := "Gpt4"; settings_rest := tt |};
     validateModelConfiguration := λ _ _, Normal (true, None);
     editing := λ _ _, Normal tt |}.

(** The same, with a validation that rejects. *)
Definition services_validation_down : Services (Z * Z) unit :=
  {| equals := equals services_accepting;
     isProviderItemConfigComplete := isProviderItemConfigComplete services_accepting;
     isModelItemConfigComplete := isModelItemConfigComplete services_accepting;
     checkIfDefaultModel := checkIfDefaultModel services_accepting;
     defaultModels := defaultModels services_accepting;
     checkIfModelIdIsTaken := checkIfModelIdIsTaken services_accepting;
     getValidatedModelSelectionSettings :=
       getValidatedModelSelectionSettings services_accepting;
     validateModelConfiguration := λ _ _, Throw (Failure "validation");
     editing := editing services_accepting |}.
End Widgets.

(** * Properties *)

(** ** [JSON.parse] reads back what [JSON.stringify] prints *)

Lemma delimited_cases k :
  delimited k = true →
  k = EmptyString ∨ ∃ c s, k = String c s ∧ (c = "," ∨ c = "]" ∨ c = "}")%char.
Proof.
  destruct k as [|c s]; [by left|]. simpl. intros H. right. exists c, s.
  split; [done|].
  apply orb_prop in H as [H|H]; [apply orb_prop in H as [H|H]|];
    apply Ascii.eqb_eq in H; auto.
Qed.

(** The digits are read back up to a text that starts with no digit. *)
Lemma parse_digits_print_uint_before d k :
  match k with String c _ => is_digit c = false | EmptyString => True end →
  parse_digits (print_uint d k) = (d, k).
Proof.
  intros Hk. induction d; simpl; rewrite ?IHd; try done.
  destruct k as [|c s]; [done|]. simpl. unfold is_digit in Hk.
  by destruct (digit_of c).
Qed.

Lemma parse_digits_print_uint d k :
  delimited k = true → parse_digits (print_uint d k) = (d, k).
Proof.
  intros Hk. apply parse_digits_print_uint_before.
  apply delimited_cases in Hk as [-> | (c & s & -> & [-> | [-> | ->]])]; done.
Qed.

Lemma ends_integer_delimited k : delimited k = true → ends_integer k = true.
Proof.
  intros Hk. apply delimited_cases in Hk as [-> | (c & s & -> & [-> | [-> | ->]])]; done.
Qed.

Lemma uint_beq_refl u : Decimal.uint_beq u u = true.
Proof. induction u; simpl; auto. Qed.

Lemma unorm_to_uint p : Decimal.unorm (Pos.to_uint p) = Pos.to_uint p.
Proof.
  rewrite <- (DecimalPos.Unsigned.to_of (Pos.to_uint p)).
  by rewrite DecimalPos.Unsigned.of_to.
Qed.

Lemma parse_unsigned_print_uint negative p k :
  delimited k = true →
  parse_unsigned negative (print_uint (Pos.to_uint p) k)
  = Some (JNum (Z.of_int (if negative then Decimal.Neg (Pos.to_uint p)
                          else Decimal.Pos (Pos.to_uint p))), k).
Proof.
  intros Hk. unfold parse_unsigned.
  rewrite parse_digits_print_uint by done.
  by rewrite unorm_to_uint, uint_beq_refl, ends_integer_delimited.
Qed.

Lemma print_uint_head u k :
  u ≠ Decimal.Nil → ∃ c s, print_uint u k = String c s ∧ is_digit c = true.
Proof. destruct u; [done|..]; intros _; simpl; eauto. Qed.

Lemma parse_number_digit c s :
  is_digit c = true → parse_number (String c s) = parse_unsigned false (String c s).
Proof.
  intros Hc. simpl. destruct (Ascii.eqb_spec c "-") as [->|]; done.
Qed.

Lemma parse_number_print_int n k :
  delimited k = true →
  parse_number (print_int (Z.to_int n) k) = Some (JNum n, k).
Proof.
  intros Hk. destruct n as [|p|p]; simpl.
  - by apply delimited_cases in Hk as [-> | (c & s & -> & [-> | [-> | ->]])].
  - destruct (print_uint_head (Pos.to_uint p) k) as (c & s & Hs & Hc).
    { apply DecimalPos.Unsigned.to_uint_nonnil. }
    pose proof (parse_unsigned_print_uint false p k Hk) as Hp.
    rewrite Hs in *. rewrite parse_number_digit by done. rewrite Hp.
    f_equal. f_equal. f_equal. apply (DecimalZ.of_to (Zpos p)).
  - rewrite parse_unsigned_print_uint by done.
    f_equal. f_equal. f_equal. apply (DecimalZ.of_to (Zneg p)).
Qed.

Lemma unorm_N_to_uint n : Decimal.unorm (N.to_uint n) = N.to_uint n.
Proof. destruct n as [|p]; [done|]. apply unorm_to_uint. Qed.

(** A number that is not an integer reads back from its digits. *)
Lemma parse_number_print_dec negative whole fraction k :
  delimited k = true →
  parse_number (print_dec negative whole fraction k)
  = Some (JDec negative whole fraction, k).
Proof.
  intros Hk.
  assert (parse_unsigned negative
            (print_uint (N.to_uint whole)
               (String "." (print_uint (Decimal.rev (Pos.to_uint fraction)) k)))
          = Some (JDec negative whole fraction, k)) as Hu.
  { unfold parse_unsigned.
    rewrite parse_digits_print_uint_before by done.
    rewrite unorm_N_to_uint, uint_beq_refl. simpl.
    rewrite parse_digits_print_uint by done.
    destruct (Decimal.rev (Pos.to_uint fraction)) eqn:Hrev.
    { apply DecimalFacts.rev_nil_inv in Hrev.
      by apply DecimalPos.Unsigned.to_uint_nonnil in Hrev. }
    all: simpl; rewrite <- Hrev.
    all: assert (parse_exponent k = Some (0%Z, k)) as ->
           by (by apply delimited_cases in Hk
                 as [-> | (c & s & -> & [-> | [-> | ->]])]).
    all: simpl; unfold decimal, scale.
    all: rewrite DecimalFacts.rev_rev.
    all: change (N.of_uint (Pos.to_uint fraction))
           with (Pos.of_uint (Pos.to_uint fraction)).
    all: rewrite DecimalPos.Unsigned.of_to.
    all: by rewrite DecimalN.Unsigned.of_to. }
  unfold print_dec. destruct negative; [exact Hu|].
  destruct (print_uint_head (N.to_uint whole)
              (String "." (print_uint (Decimal.rev (Pos.to_uint fraction)) k)))
    as (c & s & Hs & Hc).
  { destruct whole; [done|]. apply DecimalPos.Unsigned.to_uint_nonnil. }
  rewrite Hs in *. by rewrite parse_number_digit.
Qed.

Lemma parse_chars_quote_char c rest :
  parse_chars (quote_char c rest)
  = '(str, r) ← parse_chars rest; Some (String c str, r).
Proof.
  destruct c as [[] [] [] [] [] [] [] []]; reflexivity.
Qed.

Lemma parse_chars_quote_chars s k : parse_chars (quote_chars s k) = Some (s, k).
Proof.
  induction s as [|c s IH]; simpl; [done|].
  by rewrite parse_chars_quote_char, IH.
Qed.

Lemma parse_string_quote s k : parse_string (quote s k) = Some (s, k).
Proof. apply parse_chars_quote_chars. Qed.

Lemma number_start_not_ws c : number_start c = true → is_ws c = false.
Proof. destruct c as [[] [] [] [] [] [] [] []]; done. Qed.

Lemma number_start_not_close c : number_start c = true → Ascii.eqb c "]" = false.
Proof. destruct c as [[] [] [] [] [] [] [] []]; done. Qed.

Lemma parse_value_number fuel c s :
  number_start c = true →
  parse_value (S fuel) (String c s) = parse_number (String c s).
Proof.
  intros H. destruct c as [[] [] [] [] [] [] [] []]; try discriminate H; reflexivity.
Qed.

Lemma print_int_head n k :
  ∃ c s, print_int (Z.to_int n) k = String c s ∧ number_start c = true.
Proof.
  destruct n as [|p|p]; simpl; [by eauto| |by eauto].
  destruct (print_uint_head (Pos.to_uint p) k) as (c & s & -> & Hc).
  { apply DecimalPos.Unsigned.to_uint_nonnil. }
  exists c, s. split; [done|]. unfold number_start. by rewrite Hc.
Qed.

Lemma print_dec_head negative whole fraction k :
  ∃ c s, print_dec negative whole fraction k = String c s ∧ number_start c = true.
Proof.
  unfold print_dec. destruct negative; [by eauto|].
  destruct (print_uint_head (N.to_uint whole)
              (String "." (print_uint (Decimal.rev (Pos.to_uint fraction)) k)))
    as (c & s & -> & Hc).
  { destruct whole; [done|]. apply DecimalPos.Unsigned.to_uint_nonnil. }
  exists c, s. split; [done|]. unfold number_start. by rewrite Hc.
Qed.

(** A printed value starts with a character that is neither white space
    nor a closing bracket. *)
Lemma serialize_head v k :
  ∃ c s, serialize v k = String c s ∧ is_ws c = false ∧ Ascii.eqb c "]" = false.
Proof.
  destruct v as [|[]|n|negative whole fraction|s|[|v l]|[|kv m]];
    try (by simpl; eauto).
  - destruct (print_int_head n k) as (c & s & Hs & Hc).
    exists c, s. simpl. eauto using number_start_not_ws, number_start_not_close.
  - destruct (print_dec_head negative whole fraction k) as (c & s & Hs & Hc).
    exists c, s. simpl. eauto using number_start_not_ws, number_start_not_close.
Qed.

Lemma skip_ws_serialize v k : skip_ws (serialize v k) = serialize v k.
Proof.
  destruct (serialize_head v k) as (c & s & -> & Hc & _). simpl. by rewrite Hc.
Qed.

Lemma peek_close_serialize v k : peek "]" (serialize v k) = None.
Proof.
  destruct (serialize_head v k) as (c & s & -> & _ & Hc). simpl. by rewrite Hc.
Qed.

Lemma parse_value_array fuel rest :
  parse_value (S fuel) (String "[" rest)
  = match peek "]" (skip_ws rest) with
    | Some rest' => Some (JArr [], rest')
    | None => '(l, rest') ← parse_elements fuel rest; Some (JArr l, rest')
    end.
Proof. reflexivity. Qed.

Lemma parse_value_object fuel rest :
  parse_value (S fuel) (String "{" rest)
  = match peek "}" (skip_ws rest) with
    | Some rest' => Some (JObj [], rest')
    | None => '(m, rest') ← parse_members fuel rest; Some (JObj m, rest')
    end.
Proof. reflexivity. Qed.

Lemma parse_elements_step fuel s :
  parse_elements (S fuel) s
  = '(v, rest) ← parse_value fuel s;
    match skip_ws rest with
    | String c rest' =>
        if Ascii.eqb c "," then
          '(l, rest'') ← parse_elements fuel rest'; Some (v :: l, rest'')
        else if Ascii.eqb c "]" then Some ([v], rest')
        else None
    | EmptyString => None
    end.
Proof. reflexivity. Qed.

Lemma parse_members_step fuel s :
  parse_members (S fuel) s
  = '(key, rest) ← parse_string (skip_ws s);
    rest1 ← peek ":" (skip_ws rest);
    '(v, rest2) ← parse_value fuel rest1;
    match skip_ws rest2 with
    | String c rest' =>
        if Ascii.eqb c "," then
          '(m, rest'') ← parse_members fuel rest'; Some ((key, v) :: m, rest'')
        else if Ascii.eqb c "}" then Some ([(key, v)], rest')
        else None
    | EmptyString => None
    end.
Proof. reflexivity. Qed.

Lemma delimited_elements ser l k : delimited (serialize_elements ser l k) = true.
Proof. by destruct l. Qed.

Lemma delimited_members ser m k : delimited (serialize_members ser m k) = true.
Proof. by destruct m. Qed.

Lemma parse_elements_serialize l :
  Forall reads_back l →
  ∀ v fuel k, reads_back v →
    (elements_size json_size (v :: l) ≤ fuel)%nat → delimited k = true →
    parse_elements fuel (serialize v (serialize_elements serialize l k))
    = Some (v :: l, k).
Proof.
  induction 1 as [|v' l Hv' _ IH]; intros v fuel k Hv Hfuel Hk;
    (destruct fuel as [|fuel]; [simpl in Hfuel; lia|]);
    rewrite parse_elements_step; simpl in Hfuel.
  - rewrite Hv by (done || lia). reflexivity.
  - rewrite Hv by (lia || done). simpl.
    rewrite IH by (done || simpl; lia). reflexivity.
Qed.

Lemma parse_members_serialize m :
  Forall (λ kv, reads_back kv.2) m →
  ∀ key v fuel k, reads_back v →
    (members_size json_size ((key, v) :: m) ≤ fuel)%nat → delimited k = true →
    parse_members fuel
      (serialize_member serialize key v (serialize_members serialize m k))
    = Some ((key, v) :: m, k).
Proof.
  induction 1 as [|[key' v'] m Hv' _ IH]; intros key v fuel k Hv Hfuel Hk;
    (destruct fuel as [|fuel]; [simpl in Hfuel; lia|]);
    rewrite parse_members_step; simpl in Hfuel;
    unfold serialize_member at 1;
    change (skip_ws (quote key ?s)) with (quote key s);
    rewrite parse_string_quote; simpl.
  - rewrite Hv by (done || lia). reflexivity.
  - rewrite Hv by (lia || done). simpl.
    rewrite IH by (done || simpl; lia). reflexivity.
Qed.

Lemma parse_value_serialize v : reads_back v.
Proof.
  induction v as [|b|n|negative whole fraction|s|l IH|m IH]
    using json_nested_ind;
    intros fuel k Hfuel Hk; (destruct fuel as [|fuel]; [simpl in Hfuel; lia|]).
  - reflexivity.
  - by destruct b.
  - destruct (print_int_head n k) as (c & s & Hs & Hc).
    pose proof (parse_number_print_int n k Hk) as Hn.
    simpl serialize. rewrite Hs in *.
    by rewrite parse_value_number, Hn.
  - destruct (print_dec_head negative whole fraction k) as (c & s & Hs & Hc).
    pose proof (parse_number_print_dec negative whole fraction k Hk) as Hn.
    simpl serialize. rewrite Hs in *.
    by rewrite parse_value_number, Hn.
  - simpl serialize. unfold quote.
    change (parse_value (S fuel) (String dquote ?r))
      with ('(str, rest') ← parse_chars r; Some (JStr str, rest')).
    by rewrite parse_chars_quote_chars.
  - destruct IH as [|v l Hv Hl]; [reflexivity|].
    simpl serialize. rewrite parse_value_array.
    rewrite skip_ws_serialize, peek_close_serialize.
    simpl in Hfuel.
    by rewrite parse_elements_serialize by (done || simpl; lia).
  - destruct IH as [|[key v] m Hv Hm]; [reflexivity|].
    simpl serialize. rewrite parse_value_object.
    unfold serialize_member at 1.
    change (skip_ws (quote key ?s)) with (quote key s).
    change (peek "}" (quote key ?s)) with (@None string).
    fold (serialize_member serialize key v (serialize_members serialize m k)).
    simpl in Hfuel.
    by rewrite parse_members_serialize by (done || simpl; lia).
Qed.

Lemma length_app_string s k :
  String.length (s +:+ k) = (String.length s + String.length k)%nat.
Proof. induction s as [|c s IH]; cbn; [done|]. by rewrite <- IH. Qed.

(** The text of a value is at least as long as the fuel it needs. *)
Lemma length_quote_char c k :
  (String.length k < String.length (quote_char c k))%nat.
Proof. unfold quote_char. repeat case_match; simpl; lia. Qed.

Lemma length_quote_chars s k :
  (String.length k < String.length (quote_chars s k))%nat.
Proof.
  induction s as [|c s IH]; simpl; [lia|].
  pose proof (length_quote_char c (quote_chars s k)). lia.
Qed.

Lemma length_print_uint u k :
  (String.length k ≤ String.length (print_uint u k))%nat.
Proof. induction u; simpl; lia. Qed.

Lemma length_print_int n k :
  (String.length k < String.length (print_int (Z.to_int n) k))%nat.
Proof.
  destruct n as [|p|p]; simpl; [lia| |].
  - pose proof (DecimalPos.Unsigned.to_uint_nonnil p) as Hp.
    destruct (Pos.to_uint p) as [|u|u|u|u|u|u|u|u|u|u]; [done|..]; simpl;
      pose proof (length_print_uint u k); lia.
  - pose proof (length_print_uint (Pos.to_uint p) k). lia.
Qed.

Lemma length_serialize v :
  ∀ k, (json_size v + String.length k ≤ String.length (serialize v k))%nat.
Proof.
  induction v as [|b|n|negative whole fraction|s|l IH|m IH]
    using json_nested_ind; intros k.
  - simpl. rewrite length_app_string. simpl. lia.
  - destruct b; simpl; rewrite length_app_string; simpl; lia.
  - simpl. pose proof (length_print_int n k). lia.
  - simpl. unfold print_dec.
    pose proof (length_print_uint (N.to_uint whole)
                  (String "." (print_uint (Decimal.rev (Pos.to_uint fraction)) k)))
      as Hw.
    pose proof (length_print_uint (Decimal.rev (Pos.to_uint fraction)) k) as Hf.
    destruct negative; simpl in *; lia.
  - simpl. pose proof (length_quote_chars s k). lia.
  - destruct IH as [|v l Hv Hl]; [simpl; rewrite length_app_string; simpl; lia|].
    assert (∀ k, elements_size json_size l + String.length k
                 < String.length (serialize_elements serialize l k))%nat as Hels.
    { clear Hv. induction Hl as [|v' l Hv' _ IHl]; intros k'; simpl; [lia|].
      specialize (Hv' (serialize_elements serialize l k')).
      specialize (IHl k'). lia. }
    simpl. specialize (Hv (serialize_elements serialize l k)).
    specialize (Hels k). lia.
  - destruct IH as [|[key v] m Hv Hm]; [simpl; rewrite length_app_string; simpl; lia|].
    assert (∀ k, members_size json_size m + String.length k
                 < String.length (serialize_members serialize m k))%nat as Hms.
    { clear Hv. induction Hm as [|[key' v'] m Hv' _ IHm]; intros k'; simpl; [lia|].
      unfold serialize_member, quote. simpl.
      pose proof (length_quote_chars key'
        (String ":" (serialize v' (serialize_members serialize m k')))) as Hq.
      simpl in Hq, Hv'.
      specialize (Hv' (serialize_members serialize m k')).
      specialize (IHm k'). lia. }
    simpl. unfold serialize_member, quote. simpl.
    pose proof (length_quote_chars key
      (String ":" (serialize v (serialize_members serialize m k)))) as Hq.
    simpl in Hq, Hv.
    specialize (Hv (serialize_members serialize m k)).
    specialize (Hms k). lia.
Qed.

(** [JSON.parse(JSON.stringify(v))] is [v], for every value. *)
Theorem JSON_parse_stringify v : JSON_parse (JSON_stringify v) = Some v.
Proof.
  unfold JSON_parse, JSON_stringify.
  rewrite parse_value_serialize; [done| |done].
  pose proof (length_serialize v EmptyString). lia.
Qed.

(** The text of a value is never the empty string. *)
Lemma JSON_stringify_nonempty v : String.eqb (JSON_stringify v) EmptyString = false.
Proof.
  unfold JSON_stringify.
  by destruct (serialize_head v EmptyString) as (c & s & -> & _).
Qed.

Example JSON_parse_spaced :
  JSON_parse " [ 1 , -20 , true , null , [ ] , { } ] "
  = Some (JArr [JNum 1; JNum (-20); JBool true; JNull; JArr []; JObj []]).
Proof. vm_compute. reflexivity. Qed.

Example JSON_parse_rejects :
  JSON_parse "[1,]" = None ∧ JSON_parse "01" = None ∧ JSON_parse "nul" = None
  ∧ JSON_parse EmptyString = None ∧ JSON_parse "[1] 2" = None.
Proof. vm_compute. done. Qed.

(** Numbers with a fraction or an exponent are read, and denote what
    they denote: [1.50] and [15e-1] are [1.5], [1.5e1] is the integer
    [15], [-0.0] is [0]. *)
Example JSON_parse_numbers :
  JSON_parse "[1.5, 1.50, 15e-1, 1.5e1, 1E+2, 0.05, -1234.5e-6, -0.0, 0e7]"
  = Some (JArr [JDec false 1 5; JDec false 1 5; JDec false 1 5; JNum 15;
                JNum 100; JDec false 0 50; JDec true 0 5432100; JNum 0;
                JNum 0])
  ∧ JSON_stringify (JArr [JDec false 12 50; JDec true 0 5]) = "[12.05,-0.5]".
Proof. vm_compute. done. Qed.

Example JSON_parse_rejects_numbers :
  JSON_parse "1." = None ∧ JSON_parse ".5" = None ∧ JSON_parse "1e" = None
  ∧ JSON_parse "1e+" = None ∧ JSON_parse "01.5" = None
  ∧ JSON_parse "1.5.5" = None ∧ JSON_parse "+1" = None.
Proof. vm_compute. done. Qed.

(** The two escapes of a surrogate pair are one code point, of four
    bytes; a surrogate that stands alone is read too. *)
Example JSON_parse_surrogates :
  JSON_parse (String dquote ("\ud83d\ude00" +:+ String dquote EmptyString))
  = Some (JStr (String "240" (String "159" (String "152" (String "128"
                  EmptyString)))))
  ∧ JSON_parse (String dquote ("\ud83d!" +:+ String dquote EmptyString))
    = Some (JStr (String "237" (String "160" (String "189" (String "!"
                    EmptyString))))).
Proof. vm_compute. done. Qed.

Example JSON_stringify_then_parse_tokens :
  JSON_parse (JSON_stringify tokens_2) = Some tokens_2
  ∧ String.length (JSON_stringify tokens_2) = 42%nat.
Proof. vm_compute. done. Qed.

Example URLSearchParams_decodes :
  URLSearchParams "?state=abc&data=x%2By+z&&flag"
  = [("state", "abc"); ("data", "x+y z"); ("flag", EmptyString)].
Proof. vm_compute. reflexivity. Qed.

Example base64_decode_payload_2 :
  base64_decode payload_2 = Normal (JSON_stringify tokens_2).
Proof. vm_compute. reflexivity. Qed.

(** ** The session store *)

Ltac run :=
  unfold mbind, M_bind, bind, mret, M_ret, ret, throw, await, gets, asks,
    modify, try_catch, try_finally, emit in *;
  simpl in *.

Lemma as_session_session_object S : as_session (session_object S) = S.
Proof. destruct S as [[i|] [a|] [r|] [u|] [w|]]; reflexivity. Qed.

Example session_object_session_a :
  session_object session_a
  = JObj [("id", JStr "a"); ("accessToken", JStr "A1");
          ("refreshToken", JStr "r1");
          ("account", JObj [("email", JStr "dev@example.com")]);
          ("waitlistPosition", JNum 0)].
Proof. reflexivity. Qed.


Lemma getSession_absent env st :
  secrets st !! SESSION_SECRET_KEY = None →
  getSession env st = (st, Normal undefined).
Proof.
  intros Hst. unfold getSession, secretStorageService_get. run. by rewrite Hst.
Qed.



Lemma getSession_secrets env st1 st2 :
  secrets st1 = secrets st2 → (getSession env st1).2 = (getSession env st2).2.
Proof.
  intros Heq. unfold getSession, secretStorageService_get. run. rewrite Heq.
  by repeat case_match.
Qed.

(** At start-up the stored session is loaded and refreshed at once. *)
Example initialize_loads_and_refreshes :
  let stored : gmap string string :=
    {[ SESSION_SECRET_KEY := JSON_stringify (session_object session_a) ]} in
  _session (initialize env_profile_down (constructed true false stored)).1
  = Some session_a
  ∧ _session (initialize env_refreshed (constructed true false stored)).1
    = Some session_a2
  ∧ _session (initialize env_refreshed (constructed true false ∅)).1 = None.
Proof. vm_compute. done. Qed.

(** ** [refreshTokens] *)

Lemma prop_member v key x :
  prop v key = Normal x → x = member key (own_members v).
Proof. destruct v; simpl; intros; simplify_eq; done. Qed.

Lemma prop_not_null v key :
  v ≠ JNull → prop v key = Normal (member key (own_members v)).
Proof. by destruct v. Qed.

(** With a session held, [refreshTokens] is its [try] with whatever is
    thrown swallowed. *)
Lemma refreshTokens_catches env st session :
  _session st = Some session →
  refreshTokens env st = ((refreshTokens_try env st).1, Normal tt).
Proof.
  intros Hs. unfold refreshTokens. run. rewrite Hs.
  by destruct (refreshTokens_try env st) as [st' [[]|e]].
Qed.

Ltac unfold_refresh :=
  unfold refreshTokens_try, this_session, do_fetch,
    Response_json, deleteSession, setSession, secretStorageService_set,
    secretStorageService_delete, JSON_parse_throws;
  unfold mbind, M_bind, bind, mret, M_ret, ret, throw, await, gets, asks,
    modify, try_catch, try_finally, emit;
  simpl.


(** C2.  For every state that holds a session: if the refresh endpoint
    answers with a status that is not a success, [refreshTokens()]
    notifies the user, deletes the stored session and returns, and
    [getSession()] then returns [undefined]; and whenever the [try] of
    [refreshTokens()] fails with the secret storage changed, it failed
    in that way. *)
Theorem refreshTokens_rejected env st session :
  _session st = Some session →
  let request := refresh_request (_subscriptionsAPIBase st) session in
  (∀ response,
     fetch env request = Normal response → ok response = false →
     let st' := (refreshTokens env st).1 in
     refreshTokens env st = (st', Normal tt)
     ∧ refreshTokens_try env st = (st', Throw (Error Failed_to_authenticate_message))
     ∧ effects st' = (effects st ++ [Fetched request; Notified Failed_to_authenticate])%list
     ∧ secrets st' = delete SESSION_SECRET_KEY (secrets st)
     ∧ ∀ env', getSession env' st' = (st', Normal undefined))
  ∧ (∀ st' e,
       refreshTokens_try env st = (st', Throw e) → secrets st' ≠ secrets st →
       ∃ response, fetch env request = Normal response ∧ ok response = false).
Proof.
  intros Hs request. split.
  - intros response Hf Hok st'. subst st'.
    rewrite (refreshTokens_catches env st session Hs). simpl.
    assert (refreshTokens_try env st
            = (set_secrets (delete SESSION_SECRET_KEY (secrets st))
                 (set_effects
                    (effects st ++ [Fetched request; Notified Failed_to_authenticate])
                    st),
               Throw (Error Failed_to_authenticate_message))) as ->.
    { unfold_refresh. rewrite Hs. simpl. fold request. rewrite Hf. simpl.
      rewrite Hok. simpl. by rewrite <- app_assoc. }
    simpl. repeat split.
    intros env'. apply getSession_absent. simpl. apply lookup_delete_eq.
  - intros st' e. unfold_refresh. rewrite Hs. simpl. fold request.
    intros H Hne. destruct (fetch env request) as [response|]; simpl in H.
    + exists response. split; [done|].
      destruct (ok response); [|done]. exfalso. apply Hne. simpl in H.
      repeat case_match; simplify_eq; done.
    + exfalso. apply Hne. by simplify_eq.
Qed.

(** C8.  For every state that holds a session: if the refresh endpoint
    answers with a success status and a JSON body, and then the profile
    request fails (the fetch rejects, the body cannot be read, or it
    does not parse to an object to read), [refreshTokens()] returns
    normally, with the exception swallowed; the session held and the
    secret storage are what they were, so the new token pair is kept
    nowhere, and [getSession()] returns what it returned before. *)
Theorem refreshTokens_profile_failure env st session response text data :
  _session st = Some session →
  let base := _subscriptionsAPIBase st in
  fetch env (refresh_request base session) = Normal response →
  ok response = true → body response = Normal text →
  JSON_parse text = Some data → data ≠ JNull →
  profile_fails env (GET_users_me base (member "access_token" (own_members data))) →
  let st' := (refreshTokens env st).1 in
  refreshTokens env st = (st', Normal tt)
  ∧ (∃ e, refreshTokens_try env st = (st', Throw e))
  ∧ _session st' = _session st
  ∧ secrets st' = secrets st
  ∧ ∀ env', (getSession env' st').2 = (getSession env' st).2.
Proof.
  intros Hs base Hf Hok Hbody Hdata Hnull Hfail st'. subst st'.
  rewrite (refreshTokens_catches env st session Hs). simpl.
  assert (∃ e, refreshTokens_try env st
    = (set_effects
         (effects st ++
            [Fetched (refresh_request base session);
             Fetched (GET_users_me base (member "access_token" (own_members data)))])
         st, Throw e)) as [e He].
  { unfold_refresh. rewrite Hs. simpl. fold base. rewrite Hf. simpl.
    rewrite Hok, Hbody. simpl. rewrite Hdata. simpl.
    rewrite !(prop_not_null data) by done. simpl.
    unfold profile_fails in Hfail. rewrite <- app_assoc. simpl.
    destruct (fetch env (GET_users_me _ _)) as [resp|e]; simpl; [|by eauto].
    destruct (body resp) as [text'|e]; simpl; [|by eauto].
    destruct Hfail as [->| ->]; simpl; rewrite ?Hs; simpl; by eauto. }
  rewrite He. simpl. repeat split; [by eauto|].
  intros env'. by apply getSession_secrets.
Qed.

(** [deleteSession()] clears the secret storage and leaves the session
    held in memory as it was. *)
Lemma deleteSession_spec env st :
  deleteSession env st
  = (set_secrets (delete SESSION_SECRET_KEY (secrets st)) st, Normal tt).
Proof. reflexivity. Qed.

(** Without a session held in memory, [refreshTokens()] does nothing. *)
Lemma refreshTokens_without_session env st :
  _session st = None → refreshTokens env st = (st, Normal tt).
Proof. intros Hs. unfold refreshTokens. run. by rewrite Hs. Qed.

(** ** The event [onDidAuthenticate] *)

Lemma silent_ret {A} (a : A) : silent (ret a).
Proof. done. Qed.

Lemma silent_throw {A} e : silent (@throw A e).
Proof. done. Qed.

Lemma silent_await {A} (c : Completion A) : silent (await c).
Proof. done. Qed.

Lemma silent_gets {A} (f : State → A) : silent (gets f).
Proof. done. Qed.

Lemma silent_asks {A} (f : Env → A) : silent (asks f).
Proof. done. Qed.

Lemma silent_modify f : (∀ st, fired (f st) = fired st) → silent (modify f).
Proof. intros Hf env st. apply Hf. Qed.

Lemma silent_bind {A B} (m : M A) (k : A → M B) :
  silent m → (∀ a, silent (k a)) → silent (m ≫= k).
Proof.
  intros Hm Hk env st. specialize (Hm env st). run.
  destruct (m env st) as [st' [a|e]]; simpl in *; [|done].
  by rewrite Hk.
Qed.

Lemma silent_try_catch {A} (m : M A) handler :
  silent m → (∀ e, silent (handler e)) → silent (try_catch m handler).
Proof.
  intros Hm Hh env st. specialize (Hm env st). unfold try_catch.
  destruct (m env st) as [st' [a|e]]; simpl in *; [done|].
  by rewrite Hh.
Qed.

Lemma silent_try_finally {A} (m : M A) cleanup :
  silent m → silent cleanup → silent (try_finally m cleanup).
Proof.
  intros Hm Hc env st. specialize (Hm env st). unfold try_finally.
  destruct (m env st) as [st' r]. specialize (Hc env st').
  destruct (cleanup env st') as [st'' [[]|e]]; simpl in *; congruence.
Qed.

Lemma fired_emit e st :
  fired (set_effects (effects st ++ [e]) st)
  = (fired st ++ match e with Fired s => [s] | _ => [] end)%list.
Proof. unfold fired. simpl. rewrite omap_app. by destruct e. Qed.

Lemma silent_emit e :
  (∀ s, e ≠ Fired s) → silent (emit e).
Proof.
  intros He env st. unfold emit, modify. simpl. rewrite fired_emit.
  destruct e; rewrite ?app_nil_r; try done. by destruct (He session).
Qed.

Create HintDb silent.
#[local] Hint Resolve silent_ret silent_throw silent_await silent_gets
  silent_asks : silent.

Ltac silent_step :=
  first
    [ apply silent_bind; [|intros ?]
    | apply silent_try_catch; [|intros ?]
    | apply silent_try_finally
    | apply silent_modify; intros ?; reflexivity
    | apply silent_emit; intros ?; discriminate
    | solve [auto with silent]
    | case_match ].

Ltac silence := repeat silent_step.

Lemma silent_setSession session : silent (setSession session).
Proof. unfold setSession, secretStorageService_set. silence. Qed.

Lemma silent_deleteSession : silent deleteSession.
Proof. unfold deleteSession, secretStorageService_delete. silence. Qed.

Lemma silent_do_fetch request : silent (do_fetch request).
Proof. unfold do_fetch. silence. Qed.

#[local] Hint Resolve silent_setSession silent_deleteSession silent_do_fetch
  : silent.

Lemma silent_refreshTokens : silent refreshTokens.
Proof.
  unfold refreshTokens, refreshTokens_try, this_session, Response_json.
  silence.
Qed.

Lemma silent_login : silent login.
Proof.
  unfold login, login_task, race, handleURL, handleUri. silence.
Qed.

Lemma silent_getUserInfo encodedTokenData : silent (getUserInfo encodedTokenData).
Proof. unfold getUserInfo. silence. Qed.

Lemma silent_greater_than_zero v : silent (greater_than_zero v).
Proof. unfold greater_than_zero. silence. Qed.

Lemma silent_notifyWaitlistPosition position :
  silent (notifyWaitlistPosition position).
Proof. unfold notifyWaitlistPosition. silence. Qed.

Lemma bind_normal {A B} (m : M A) (k : A → M B) env st st' b :
  (m ≫= k) env st = (st', Normal b) →
  ∃ st1 a, m env st = (st1, Normal a) ∧ k a env st1 = (st', Normal b).
Proof.
  unfold mbind, M_bind, bind. destruct (m env st) as [st1 [a|e]]; [|done].
  eauto.
Qed.

Lemma silent_fired {A} (m : M A) env st st' r :
  silent m → m env st = (st', r) → fired st' = fired st.
Proof. intros Hm H. specialize (Hm env st). by rewrite H in Hm. Qed.

(** C3.  For every call of [createSession()] that returns a session,
    [onDidAuthenticate] fired exactly once during the call, with that
    session; and no call of [refreshTokens()] fires it. *)
Theorem onDidAuthenticate_fires_once env st st' session :
  createSession env st = (st', Normal session) →
  fired st' = (fired st ++ [session])%list
  ∧ ∀ env2 st2, fired (refreshTokens env2 st2).1 = fired st2.
Proof.
  intros H. split; [|apply silent_refreshTokens].
  unfold createSession, try_catch in H.
  match type of H with
  | match ?body env st with _ => _ end = _ =>
      destruct (body env st) as [st0 [session0|e]] eqn:Hbody; [|done]
  end.
  simplify_eq.
  apply bind_normal in Hbody as (st1 & encoded & Hlogin & Hbody).
  apply (silent_fired _ _ _ _ _ silent_login) in Hlogin.
  destruct (String.eqb encoded EmptyString); [done|].
  apply bind_normal in Hbody as (st2 & userInfo & HuserInfo & Hbody).
  apply (silent_fired _ _ _ _ _ (silent_getUserInfo encoded)) in HuserInfo.
  apply bind_normal in Hbody as (st3 & waitlisted & Hgt & Hbody).
  apply (silent_fired _ _ _ _ _ (silent_greater_than_zero _)) in Hgt.
  apply bind_normal in Hbody as (st4 & [] & Hnotify & Hbody).
  assert (fired st4 = fired st3) as Hst4.
  { destruct waitlisted.
    - by apply (silent_fired _ _ _ _ _ (silent_notifyWaitlistPosition _)) in Hnotify.
    - by inversion Hnotify. }
  apply bind_normal in Hbody as (st5 & sessionId & Hasks & Hbody).
  inversion Hasks; subst st5 sessionId; clear Hasks.
  apply bind_normal in Hbody as (st6 & [] & Hemit & Hbody).
  inversion Hemit; subst st6; clear Hemit.
  apply bind_normal in Hbody as (st7 & [] & Hset & Hbody).
  apply (silent_fired _ _ _ _ _ (silent_setSession _)) in Hset.
  inversion Hbody; subst.
  rewrite Hset, fired_emit. congruence.
Qed.

(** ** [login] *)

Lemma not_elem_of_filter_ne (stateId : string) (l : list string) :
  stateId ∉ filter (λ n, n ≠ stateId) l.
Proof. rewrite list_elem_of_filter. by intros [? _]. Qed.

Lemma login_task_clears_pending racing env st opened :
  opener env (_websiteBase st +:+ "/authenticate?state=" +:+ stateId_uuid env)
    = Normal opened →
  stateId_uuid env ∉ _pendingStates (login_task racing env st).1.
Proof.
  intros Hopen. unfold login_task. run. rewrite Hopen. simpl.
  match goal with |- context [racing env ?s] =>
    destruct (racing env s) as [st1 r] end.
  simpl. apply not_elem_of_filter_ne.
Qed.

(** C4.  For every login attempt that reaches the race (the
    authorization URL was opened), the correlation identifier it pushed
    is not among the pending ones when the attempt finishes: whatever
    ran while the race was pending, whatever that left in the state and
    however the race ended, by a value or by any error ([login_task]);
    and so for [login] with each of the arms of its race. *)
Theorem login_clears_pending env st opened :
  opener env (_websiteBase st +:+ "/authenticate?state=" +:+ stateId_uuid env)
    = Normal opened →
  (∀ racing, stateId_uuid env ∉ _pendingStates (login_task racing env st).1)
  ∧ stateId_uuid env ∉ _pendingStates (login env st).1.
Proof.
  intros Hopen. split.
  - intros racing. by apply (login_task_clears_pending racing env st opened).
  - unfold login. run.
    by apply (login_task_clears_pending _ env _ opened).
Qed.

(** When the opener fails, the race never starts and the identifier
    stays among the pending ones. *)
Lemma login_opener_failure env st e :
  opener env (_websiteBase st +:+ "/authenticate?state=" +:+ stateId_uuid env)
    = Throw e →
  (login env st).2 = Throw e
  ∧ stateId_uuid env ∈ _pendingStates (login env st).1.
Proof.
  intros Hopen. unfold login, login_task. run. rewrite Hopen. simpl.
  split; [done|]. apply elem_of_app. right. by apply list_elem_of_singleton.
Qed.

(** The handler reads [data] and nothing else: it settles the login
    with it (or with the empty string) and returns [true], whatever the
    URI. *)
Lemma handleURL_spec uri env st :
  handleURL uri env st
  = (set_effects (effects st ++ [HandlerDisposed]) st,
     Normal (Normal (default EmptyString (URLSearchParams_get (URLSearchParams (query uri)) "data")),
             true)).
Proof.
  unfold handleURL, handleUri. run.
  destruct (URLSearchParams_get _ _) as [encodedData|]; simpl; [|done].
  by destruct (String.eqb_spec encodedData EmptyString) as [->|].
Qed.

Lemma login_callback env st uri opened :
  settles env = CallbackArrives uri →
  opener env (_websiteBase st +:+ "/authenticate?state=" +:+ stateId_uuid env)
    = Normal opened →
  (login env st).2
  = Normal (default EmptyString (URLSearchParams_get (URLSearchParams (query uri)) "data"))
  ∧ _session (login env st).1 = _session st
  ∧ secrets (login env st).1 = secrets st.
Proof.
  intros Hev Hopen. unfold login, login_task. run. rewrite Hev, Hopen. simpl.
  unfold mbind, M_bind, bind. rewrite handleURL_spec. done.
Qed.

(** C6.  If the callback URI that reaches the handler has no [data]
    parameter, [login()] resolves to the empty string, [createSession()]
    throws, and nothing is stored: the session held, the secret storage
    and what [getSession()] returns are as before the attempt. *)
Theorem createSession_without_data env st uri opened :
  settles env = CallbackArrives uri →
  URLSearchParams_get (URLSearchParams (query uri)) "data" = None →
  opener env (_websiteBase st +:+ "/authenticate?state=" +:+ stateId_uuid env)
    = Normal opened →
  (login env st).2 = Normal EmptyString
  ∧ (createSession env st).2 = Throw (Error "CodeStory login failure")
  ∧ _session (createSession env st).1 = _session st
  ∧ secrets (createSession env st).1 = secrets st
  ∧ ∀ env', (getSession env' (createSession env st).1).2 = (getSession env' st).2.
Proof.
  intros Hev Hdata Hopen.
  destruct (login_callback env st uri opened Hev Hopen) as (Hr & Hs & Hsec).
  rewrite Hdata in Hr. simpl in Hr.
  assert (createSession env st
          = ((login env st).1, Throw (Error "CodeStory login failure"))) as ->.
  { unfold createSession, try_catch, mbind, M_bind, bind, throw.
    destruct (login env st) as [st1 r]. simpl in Hr. by subst r. }
  simpl. repeat split; try done. intros env'. by apply getSession_secrets.
Qed.

(** What the handler does with a callback URI, whatever its [state]
    parameter is: [login()] resolves to the [data] parameter of the URI,
    or to the empty string when there is none, and the handler answers
    [true], in every state and for every URI. *)
Lemma login_resolves_on_any_callback env st uri opened :
  settles env = CallbackArrives uri →
  opener env (_websiteBase st +:+ "/authenticate?state=" +:+ stateId_uuid env)
    = Normal opened →
  let data := default EmptyString (URLSearchParams_get (URLSearchParams (query uri)) "data") in
  (login env st).2 = Normal data
  ∧ ∀ env' st', (handleURL uri env' st').2 = Normal (Normal data, true).
Proof.
  intros Hev Hopen data. split.
  - by destruct (login_callback env st uri opened Hev Hopen) as (Hr & _).
  - intros env' st'. by rewrite handleURL_spec.
Qed.

(** C7, on the code.  [login()] generates the correlation identifier,
    sends it as the [state] of the authorization URL and keeps it in
    [_pendingStates], but nothing compares the [state] of a callback
    with it: the attempt with the identifier [state-1] is resolved by a
    callback whose [state] is [state-2], and by one that has no [state]
    at all.  The claim says that such a callback resolves no attempt. *)
Theorem login_resolved_by_other_state :
  stateId_uuid (env_callback "state=state-2&data=abc") = "state-1"
  ∧ URLSearchParams_get (URLSearchParams "state=state-2&data=abc") "state"
    = Some "state-2"
  ∧ (login (env_callback "state=state-2&data=abc") state_a).2 = Normal "abc"
  ∧ URLSearchParams_get (URLSearchParams "data=abc") "state" = None
  ∧ (login (env_callback "data=abc") state_a).2 = Normal "abc".
Proof. vm_compute. done. Qed.

(** C5, on the code.  [deleteSession()] deletes the stored session, so
    that [getSession()] returns [undefined], but the session held in
    memory stays; the [refreshTokens()] that follows sends both requests
    and stores a session again. *)
Theorem deleteSession_then_refreshTokens :
  let st1 := (deleteSession env_refreshed state_a).1 in
  let st2 := (refreshTokens env_refreshed st1).1 in
  getSession env_refreshed st1 = (st1, Normal undefined)
  ∧ _session st1 = Some session_a
  ∧ requests st2
    = [refresh_request "https://api.codestory.ai" session_a;
       GET_users_me "https://api.codestory.ai" (Some (JStr "A2"))]
  ∧ _session st2 = Some session_a2
  ∧ getSession env_refreshed st2 = (st2, Normal (Some (session_object session_a2))).
Proof. vm_compute. done. Qed.

(** In every state that holds a session, the [refreshTokens()] that
    follows a [deleteSession()] still sends the refresh request. *)
Lemma refreshTokens_after_deleteSession_fetches env st session :
  _session st = Some session →
  ∃ others,
    requests (refreshTokens env (deleteSession env st).1).1
    = (requests st
       ++ refresh_request (_subscriptionsAPIBase st) session :: others)%list.
Proof.
  intros Hs. rewrite deleteSession_spec. simpl.
  rewrite (refreshTokens_catches _ _ session) by done.
  unfold_refresh. rewrite Hs. simpl. unfold requests.
  repeat case_match; simplify_eq; simpl; rewrite ?omap_app; simpl;
    rewrite <- ?app_assoc; simpl; eauto.
Qed.

(** [deleteSession()] never touches the session held in memory. *)
Lemma deleteSession_keeps_session env st :
  _session (deleteSession env st).1 = _session st
  ∧ ∀ env', getSession env' (deleteSession env st).1
            = ((deleteSession env st).1, Normal undefined).
Proof.
  split; [done|]. intros env'. apply getSession_absent.
  rewrite deleteSession_spec. simpl. apply lookup_delete_eq.
Qed.

(** ** [InlineEdit] *)

(** C10.  [equals] does not look at [commands]: two [InlineEdit]s whose
    [edit]s are equal and whose [isCollapsed], [renderExplicitly] and
    [inlineCompletion] are the same are equal, whatever their
    [commands]. *)
Theorem InlineEdit_equals_ignores_commands
    {SingleTextEdit Command InlineCompletionItem : Type}
    `{EqDecision InlineCompletionItem}
    (SingleTextEdit_equals : SingleTextEdit → SingleTextEdit → bool)
    (a b : InlineEdit.InlineEdit SingleTextEdit Command InlineCompletionItem) :
  SingleTextEdit_equals (InlineEdit.edit a) (InlineEdit.edit b) = true →
  InlineEdit.isCollapsed a = InlineEdit.isCollapsed b →
  InlineEdit.renderExplicitly a = InlineEdit.renderExplicitly b →
  InlineEdit.inlineCompletion a = InlineEdit.inlineCompletion b →
  InlineEdit.equals SingleTextEdit_equals a b = true.
Proof.
  intros Hedit Hc Hr Hi. unfold InlineEdit.equals.
  rewrite Hedit, Hc, Hr, Hi, !Bool.eqb_reflx. simpl.
  by apply bool_decide_eq_true.
Qed.

(** ** The theorems at the scenario *)


Lemma refreshTokens_rejected_witness :
  let st' := (refreshTokens env_rejected state_a).1 in
  _session state_a = Some session_a
  ∧ effects st'
    = [Fetched (refresh_request "https://api.codestory.ai" session_a);
       Notified Failed_to_authenticate]
  ∧ getSession env_rejected st' = (st', Normal undefined).
Proof.
  intros st'.
  destruct (refreshTokens_rejected env_rejected state_a session_a eq_refl)
    as [Hrejected _].
  destruct (Hrejected _ eq_refl eq_refl) as (_ & _ & Heffects & _ & Hget).
  split; [reflexivity|]. split; [exact Heffects|]. exact (Hget env_rejected).
Defined.

Lemma onDidAuthenticate_fires_once_witness :
  let env := env_callback ("state=state-1&data=" +:+ payload_2) in
  let st := constructed true false ∅ in
  let st' := (createSession env st).1 in
  createSession env st = (st', Normal session_1)
  ∧ fired st' = [session_1].
Proof.
  intros env st st'.
  assert (createSession env st = (st', Normal session_1)) as Hc
    by (vm_compute; reflexivity).
  split; [exact Hc|].
  exact (proj1 (onDidAuthenticate_fires_once env st st' session_1 Hc)).
Defined.

Lemma login_clears_pending_witness :
  opener env_cancelled "https://aide.dev/authenticate?state=state-1" = Normal true
  ∧ "state-1" ∉ _pendingStates (login env_cancelled state_a).1.
Proof.
  split; [reflexivity|].
  exact (proj2 (login_clears_pending env_cancelled state_a true eq_refl)).
Defined.

Lemma createSession_without_data_witness :
  let env := env_callback "state=state-1" in
  settles env = CallbackArrives (callback "state=state-1")
  ∧ URLSearchParams_get (URLSearchParams "state=state-1") "data" = None
  ∧ (createSession env state_a).2 = Throw (Error "CodeStory login failure")
  ∧ (getSession env (createSession env state_a).1).2 = (getSession env state_a).2.
Proof.
  intros env.
  destruct (createSession_without_data env state_a (callback "state=state-1") true
              eq_refl eq_refl eq_refl) as (_ & Hthrows & _ & _ & Hget).
  split; [reflexivity|]. split; [reflexivity|]. split; [exact Hthrows|].
  exact (Hget env).
Defined.

Lemma login_resolves_on_any_callback_witness :
  let env := env_callback "state=state-2&data=abc" in
  settles env = CallbackArrives (callback "state=state-2&data=abc")
  ∧ stateId_uuid env = "state-1"
  ∧ (login env state_a).2 = Normal "abc".
Proof.
  intros env. split; [reflexivity|]. split; [reflexivity|].
  exact (proj1 (login_resolves_on_any_callback env state_a
                  (callback "state=state-2&data=abc") true eq_refl eq_refl)).
Defined.

Lemma refreshTokens_profile_failure_witness :
  let st' := (refreshTokens env_profile_down state_a).1 in
  _session state_a = Some session_a
  ∧ profile_fails env_profile_down
      (GET_users_me "https://api.codestory.ai" (Some (JStr "A2")))
  ∧ refreshTokens env_profile_down state_a = (st', Normal tt)
  ∧ _session st' = Some session_a
  ∧ secrets st' = secrets state_a.
Proof.
  intros st'.
  assert (JSON_parse (JSON_stringify tokens_2) = Some tokens_2) as Hp
    by (vm_compute; reflexivity).
  destruct (refreshTokens_profile_failure env_profile_down state_a session_a
              _ _ tokens_2 eq_refl eq_refl eq_refl eq_refl Hp
              ltac:(discriminate) I)
    as (Hr & _ & Hsession & Hsecrets & _).
  split; [reflexivity|]. split; [exact I|]. split; [exact Hr|].
  split; [exact Hsession|exact Hsecrets].
Defined.

Lemma InlineEdit_equals_ignores_commands_witness :
  let a : InlineEdit.InlineEdit string string nat :=
    {| InlineEdit.edit := "x"; InlineEdit.isCollapsed := false;
       InlineEdit.renderExplicitly := true; InlineEdit.commands := ["accept"];
       InlineEdit.inlineCompletion := 7 |} in
  let b : InlineEdit.InlineEdit string string nat :=
    {| InlineEdit.edit := "x"; InlineEdit.isCollapsed := false;
       InlineEdit.renderExplicitly := true; InlineEdit.commands := [];
       InlineEdit.inlineCompletion := 7 |} in
  InlineEdit.commands a ≠ InlineEdit.commands b
  ∧ InlineEdit.equals String.eqb a b = true.
Proof.
  intros a b. split; [discriminate|].
  exact (InlineEdit_equals_ignores_commands String.eqb a b
           eq_refl eq_refl eq_refl eq_refl).
Defined.

(** * Further properties of the service *)

(** ** Parts of the state a computation leaves alone *)

Lemma preserves_ret {X A} (f : State → X) (a : A) : preserves f (ret a).
Proof. done. Qed.

Lemma preserves_throw {X A} (f : State → X) e : preserves f (@throw A e).
Proof. done. Qed.

Lemma preserves_await {X A} (f : State → X) (c : Completion A) :
  preserves f (await c).
Proof. done. Qed.

Lemma preserves_gets {X A} (f : State → X) (g : State → A) : preserves f (gets g).
Proof. done. Qed.

Lemma preserves_asks {X A} (f : State → X) (g : Env → A) : preserves f (asks g).
Proof. done. Qed.

Lemma preserves_modify {X} (f : State → X) g :
  (∀ st, f (g st) = f st) → preserves f (modify g).
Proof. intros Hg env st. apply Hg. Qed.

Lemma preserves_bind {X A B} (f : State → X) (m : M A) (k : A → M B) :
  preserves f m → (∀ a, preserves f (k a)) → preserves f (m ≫= k).
Proof.
  intros Hm Hk env st. specialize (Hm env st). run.
  destruct (m env st) as [st' [a|e]]; simpl in *; [|done].
  by rewrite Hk.
Qed.

Lemma preserves_try_catch {X A} (f : State → X) (m : M A) handler :
  preserves f m → (∀ e, preserves f (handler e)) →
  preserves f (try_catch m handler).
Proof.
  intros Hm Hh env st. specialize (Hm env st). unfold try_catch.
  destruct (m env st) as [st' [a|e]]; simpl in *; [done|].
  by rewrite Hh.
Qed.

Lemma preserves_try_finally {X A} (f : State → X) (m : M A) cleanup :
  preserves f m → preserves f cleanup → preserves f (try_finally m cleanup).
Proof.
  intros Hm Hc env st. specialize (Hm env st). unfold try_finally.
  destruct (m env st) as [st' r]. specialize (Hc env st').
  destruct (cleanup env st') as [st'' [[]|e]]; simpl in *; congruence.
Qed.

Lemma preserves_emit {X} (f : State → X) e :
  effect_free f → preserves f (emit e).
Proof. intros Hf env st. apply Hf. Qed.


Lemma effect_free_session : effect_free _session.
Proof. done. Qed.

Lemma effect_free_secrets : effect_free secrets.
Proof. done. Qed.

Lemma effect_free_pendingStates : effect_free _pendingStates.
Proof. done. Qed.

Lemma effect_free_websiteBase : effect_free _websiteBase.
Proof. done. Qed.

Lemma effect_free_subscriptionsAPIBase : effect_free _subscriptionsAPIBase.
Proof. done. Qed.

Create HintDb preserves.
#[local] Hint Resolve preserves_ret preserves_throw preserves_await
  preserves_gets preserves_asks effect_free_session effect_free_secrets
  effect_free_pendingStates effect_free_websiteBase
  effect_free_subscriptionsAPIBase : preserves.

Ltac preserve_step :=
  first
    [ apply preserves_bind; [|intros ?]
    | apply preserves_try_catch; [|intros ?]
    | apply preserves_try_finally
    | apply preserves_modify; intros ?; reflexivity
    | apply preserves_emit; solve [auto with preserves]
    | solve [auto with preserves]
    | case_match ].

Ltac preserve := repeat preserve_step.

(** ** [initialize] *)

(** X1.  At start-up with nothing stored, or with the empty text
    stored, [initialize()] leaves no session held and does nothing
    else: no request, no notification, and it returns normally. *)
Theorem initialize_without_stored_session env st :
  secrets st !! SESSION_SECRET_KEY = None
  ∨ secrets st !! SESSION_SECRET_KEY = Some EmptyString →
  initialize env st = (set_session None st, Normal tt).
Proof.
  intros [Hst|Hst]; unfold initialize, secretStorageService_get, refreshTokens;
    run; by rewrite Hst.
Qed.

(** With a session held, [refreshTokens()] starts by sending the refresh
    request that carries the refresh token of that session. *)
Lemma refreshTokens_fetches_first env st session :
  _session st = Some session →
  ∃ others,
    requests (refreshTokens env st).1
    = (requests st
       ++ refresh_request (_subscriptionsAPIBase st) session :: others)%list.
Proof.
  intros Hs. rewrite (refreshTokens_catches _ _ session) by done.
  unfold_refresh. rewrite Hs. simpl. unfold requests.
  repeat case_match; simplify_eq; simpl; rewrite ?omap_app; simpl;
    rewrite <- ?app_assoc; simpl; eauto.
Qed.

Lemma truthy_session_object S : truthy (session_object S) = true.
Proof. done. Qed.

Lemma initialize_loads env st S :
  secrets st !! SESSION_SECRET_KEY = Some (JSON_stringify (session_object S)) →
  initialize env st = refreshTokens env (set_session (Some S) st).
Proof.
  intros Hst. unfold initialize, secretStorageService_get, JSON_parse_throws.
  run. rewrite Hst, JSON_stringify_nonempty, JSON_parse_stringify. simpl.
  by rewrite as_session_session_object.
Qed.

(** X2.  What [setSession(S)] stored is what the next start-up loads:
    with the text of [S] in the secret storage, [initialize()] takes [S]
    as the session held and at once sends the refresh request carrying
    the refresh token of [S], before any other request; it returns
    normally whatever the answers are. *)
Theorem initialize_refreshes_stored_session env st S :
  secrets st !! SESSION_SECRET_KEY = Some (JSON_stringify (session_object S)) →
  (initialize env st).2 = Normal tt
  ∧ ∃ others,
      requests (initialize env st).1
      = (requests st
         ++ refresh_request (_subscriptionsAPIBase st) S :: others)%list.
Proof.
  intros Hst. rewrite (initialize_loads env st S Hst). split.
  - by rewrite (refreshTokens_catches _ _ S).
  - by apply (refreshTokens_fetches_first env (set_session (Some S) st) S).
Qed.

(** X3.  If the stored text is not JSON, [initialize()] throws the
    [SyntaxError] of [JSON.parse] before anything else happens: the
    state is untouched and no refresh is attempted. *)
Theorem initialize_rejects_corrupt_store env st text :
  secrets st !! SESSION_SECRET_KEY = Some text →
  text ≠ EmptyString →
  JSON_parse text = None →
  initialize env st = (st, Throw SyntaxError).
Proof.
  intros Hst Hne Hparse. unfold initialize, secretStorageService_get,
    JSON_parse_throws. run. rewrite Hst.
  destruct (String.eqb_spec text EmptyString) as [->|_]; [done|].
  simpl. by rewrite Hparse.
Qed.

(** ** [refreshTokens], further *)

Lemma preserves_setSession {X} (f : State → X) session :
  (∀ s st, f (set_session s st) = f st) →
  (∀ m st, f (set_secrets m st) = f st) →
  preserves f (setSession session).
Proof.
  intros H1 H2 env st. unfold setSession, secretStorageService_set. run.
  by rewrite H2, H1.
Qed.

Lemma preserves_deleteSession {X} (f : State → X) :
  (∀ m st, f (set_secrets m st) = f st) → preserves f deleteSession.
Proof. intros H env st. apply H. Qed.

Lemma preserves_do_fetch {X} (f : State → X) request :
  effect_free f → preserves f (do_fetch request).
Proof. intros Hf. unfold do_fetch. preserve. Qed.

Lemma preserves_refreshTokens {X} (f : State → X) :
  effect_free f →
  (∀ s st, f (set_session s st) = f st) →
  (∀ m st, f (set_secrets m st) = f st) →
  preserves f refreshTokens.
Proof.
  intros Hf H1 H2.
  unfold refreshTokens, refreshTokens_try, this_session, Response_json.
  repeat first
    [ apply preserves_setSession; assumption
    | apply preserves_deleteSession; assumption
    | apply preserves_do_fetch; assumption
    | apply preserves_emit; assumption
    | preserve_step ].
Qed.

(** X4.  [refreshTokens()] never throws: in every state and whatever the
    endpoints answer it returns normally, so a caller cannot tell a
    refresh from a failure; and it leaves the pending login attempts and
    the two base URLs as they were. *)
Theorem refreshTokens_returns_normally env st :
  (refreshTokens env st).2 = Normal tt
  ∧ _pendingStates (refreshTokens env st).1 = _pendingStates st
  ∧ _websiteBase (refreshTokens env st).1 = _websiteBase st
  ∧ _subscriptionsAPIBase (refreshTokens env st).1 = _subscriptionsAPIBase st.
Proof.
  split.
  - destruct (_session st) as [session|] eqn:Hs.
    + by rewrite (refreshTokens_catches _ _ session).
    + by rewrite refreshTokens_without_session.
  - repeat split; by apply preserves_refreshTokens.
Qed.

(** X5.  With a session held, if the refresh request brings no token
    pair (the fetch rejects, or the answer has a success status and a
    body that cannot be read, is not JSON, or is [null]),
    [refreshTokens()] sends that one request and nothing more: no
    profile request, no notification, and the session stays held and
    stored. *)
Theorem refreshTokens_keeps_session_on_transport_failure env st session :
  _session st = Some session →
  let request := refresh_request (_subscriptionsAPIBase st) session in
  refresh_unreadable env request →
  refreshTokens env st
  = (set_effects (effects st ++ [Fetched request]) st, Normal tt).
Proof.
  intros Hs request Hbad.
  rewrite (refreshTokens_catches _ _ session) by done.
  unfold refresh_unreadable in Hbad.
  unfold_refresh. rewrite Hs. simpl. fold request.
  destruct (fetch env request) as [response|e]; simpl; [|done].
  destruct Hbad as [-> Hbody]. simpl.
  destruct (body response) as [text|e]; simpl; [|done].
  by destruct Hbody as [-> | ->].
Qed.

(** ** [login], further *)

Lemma filter_ne_app_self (stateId : string) (l : list string) :
  filter (λ n, n ≠ stateId) (l ++ [stateId])%list = filter (λ n, n ≠ stateId) l.
Proof.
  rewrite filter_app. rewrite (filter_cons_False _ stateId) by (intros H; by apply H).
  by rewrite filter_nil, app_nil_r.
Qed.

(** X6.  When the timer or the cancellation settles the race,
    [login()] rejects with the bare string [Cancelled] (the timer) or
    [User Cancelled] (the user), and the handler that was registered
    with the URL service is not disposed: the effects of the attempt are
    the progress notification, the opened URL and the registration, and
    nothing else. *)
Theorem login_abandoned env st opened :
  opener env (_websiteBase st +:+ "/authenticate?state=" +:+ stateId_uuid env)
    = Normal opened →
  settles env = TimeoutElapses ∨ settles env = UserCancels →
  (login env st).2
  = Throw (Reason (match settles env with
                   | TimeoutElapses => "Cancelled"
                   | _ => "User Cancelled"
                   end))
  ∧ effects (login env st).1
    = (effects st
       ++ [Progress "Signing in to CodeStory...";
           Opened (_websiteBase st +:+ "/authenticate?state=" +:+ stateId_uuid env);
           HandlerRegistered])%list.
Proof.
  intros Hopen Hev. unfold login, login_task. run. rewrite Hopen. simpl.
  destruct Hev as [-> | ->]; simpl; rewrite <- !app_assoc; done.
Qed.

(** X7.  Once the authorization URL was opened, whichever arm settles
    the race, the pending identifiers after [login()] are those before
    it without the attempt's own: the identifiers of other attempts stay
    pending, in their order, and an earlier identifier equal to the new
    one is removed with it. *)
Theorem login_pending_after env st opened :
  opener env (_websiteBase st +:+ "/authenticate?state=" +:+ stateId_uuid env)
    = Normal opened →
  _pendingStates (login env st).1
  = filter (λ n, n ≠ stateId_uuid env) (_pendingStates st).
Proof.
  intros Hopen. unfold login, login_task. run. rewrite Hopen. simpl.
  destruct (settles env) as [uri| |]; simpl.
  - unfold mbind, M_bind, bind. rewrite handleURL_spec. simpl.
    apply filter_ne_app_self.
  - apply filter_ne_app_self.
  - apply filter_ne_app_self.
Qed.

(** X8.  If the opener rejects, [login()] rejects with the same error
    before any handler is registered, and the identifier it had pushed
    stays pending: the cleanup only covers the race. *)
Theorem login_opener_rejects env st e :
  opener env (_websiteBase st +:+ "/authenticate?state=" +:+ stateId_uuid env)
    = Throw e →
  (login env st).2 = Throw e
  ∧ _pendingStates (login env st).1 = (_pendingStates st ++ [stateId_uuid env])%list
  ∧ effects (login env st).1
    = (effects st
       ++ [Progress "Signing in to CodeStory...";
           Opened (_websiteBase st +:+ "/authenticate?state=" +:+ stateId_uuid env)])%list.
Proof.
  intros Hopen. unfold login, login_task. run. rewrite Hopen. simpl.
  by rewrite <- app_assoc.
Qed.

(** ** The session store, further *)

(** X14.  In every state, [getSession()] after [deleteSession()]
    returns [undefined]; deleting twice is deleting once; and
    [deleteSession()] touches nothing but the secret storage. *)
Theorem deleteSession_then_getSession env env' st :
  getSession env' (deleteSession env st).1
  = ((deleteSession env st).1, Normal undefined)
  ∧ (deleteSession env (deleteSession env st).1).1 = (deleteSession env st).1
  ∧ (deleteSession env st).1
    = set_secrets (delete SESSION_SECRET_KEY (secrets st)) st.
Proof.
  rewrite !deleteSession_spec. simpl. split; [|split; [|done]].
  - apply getSession_absent. simpl. apply lookup_delete_eq.
  - unfold set_secrets. simpl. f_equal. apply delete_delete_eq.
Qed.

(** X15.  [getSession()] reads and never writes: the state is as it
    was; it returns [undefined] exactly when nothing or the empty text
    is stored; and a stored text that is not JSON makes it throw a
    [SyntaxError]. *)
Theorem getSession_reads_only env st :
  (getSession env st).1 = st
  ∧ ((getSession env st).2 = Normal undefined
     ↔ secrets st !! SESSION_SECRET_KEY = None
       ∨ secrets st !! SESSION_SECRET_KEY = Some EmptyString)
  ∧ (∀ text, secrets st !! SESSION_SECRET_KEY = Some text →
       text ≠ EmptyString → JSON_parse text = None →
       (getSession env st).2 = Throw SyntaxError).
Proof.
  unfold getSession, secretStorageService_get, JSON_parse_throws. run.
  destruct (secrets st !! SESSION_SECRET_KEY) as [text|] eqn:Hst; simpl.
  - destruct (String.eqb_spec text EmptyString) as [->|Hne]; simpl.
    + split; [done|]. split; [split; by auto|]. intros text' ? Hne'. by simplify_eq.
    + destruct (JSON_parse text) as [v|] eqn:Hparse; simpl.
      * split; [done|]. split.
        -- split; [done|]. intros [?|?]; by simplify_eq.
        -- intros text' ? _ Hnone. by simplify_eq.
      * split; [done|]. split.
        -- split; [done|]. intros [?|?]; by simplify_eq.
        -- done.
  - split; [done|]. split; [split; by auto|]. done.
Qed.


(** ** [getUserInfo] *)

Lemma member_app key (m1 m2 : list (string * json)) :
  member key (m1 ++ m2)
  = match member key m2 with
    | Some v => Some v
    | None => member key m1
    end.
Proof.
  induction m1 as [|kv m1 IH]; simpl.
  - by destruct (member key m2).
  - rewrite IH. by destruct (member key m2).
Qed.

Ltac unfold_getUserInfo :=
  unfold getUserInfo, do_fetch, JSON_parse_throws;
  unfold mbind, M_bind, bind, mret, M_ret, ret, throw, await, gets, asks,
    modify, try_catch, try_finally, emit;
  simpl.

(** X12.  When [getUserInfo(payload)] returns, the payload decoded to a
    JSON text [tokens], exactly one request went out, the profile
    request bearing [tokens.access_token], nothing else in the state
    changed, and in the record returned every property of [tokens]
    takes precedence over the property of the same name in the profile
    answer. *)
Theorem getUserInfo_merges payload env st st' userInfo :
  getUserInfo payload env st = (st', Normal userInfo) →
  ∃ text tokens resp text' data,
    let request :=
      GET_users_me (_subscriptionsAPIBase st)
        (member "access_token" (own_members tokens)) in
    decodeBase64 env payload = Normal text
    ∧ JSON_parse text = Some tokens
    ∧ fetch env request = Normal resp
    ∧ body resp = Normal text'
    ∧ JSON_parse text' = Some data
    ∧ st' = set_effects (effects st ++ [Fetched request]) st
    ∧ ∀ key,
        member key (own_members userInfo)
        = match member key (own_members tokens) with
          | Some v => Some v
          | None => member key (own_members data)
          end.
Proof.
  unfold_getUserInfo. intros H.
  repeat case_match; simplify_eq.
  match goal with H : prop _ _ = Normal _ |- _ => apply prop_member in H end.
  simplify_eq.
  eexists _, _, _, _, _. repeat split; try eassumption.
  intros key. simpl. apply member_app.
Qed.

(** X13.  A payload that does not decode, or that decodes to a text
    that is not JSON or is [null], makes [getUserInfo] throw before any
    request is sent: the state is untouched. *)
Theorem getUserInfo_rejects_malformed_payload payload env st :
  match decodeBase64 env payload with
  | Throw _ => True
  | Normal text => JSON_parse text = None ∨ JSON_parse text = Some JNull
  end →
  (getUserInfo payload env st).1 = st
  ∧ ∃ e, (getUserInfo payload env st).2 = Throw e.
Proof.
  unfold_getUserInfo. intros H.
  destruct (decodeBase64 env payload) as [text|e]; simpl; [|by eauto].
  destruct H as [-> | ->]; simpl; by eauto.
Qed.

(** ** [createSession], further *)
















(** ** The query of the callback *)

Lemma plain_cons c s :
  plain (String c s) = true →
  Ascii.eqb c "&" = false ∧ Ascii.eqb c "%" = false ∧ Ascii.eqb c "+" = false
  ∧ plain s = true.
Proof.
  simpl. intros H. apply andb_prop in H as [H Hs].
  apply negb_true_iff in H.
  apply orb_false_elim in H as [H H3]. apply orb_false_elim in H as [H1 H2].
  done.
Qed.

Lemma plain_app s t : plain s = true → plain t = true → plain (s +:+ t) = true.
Proof.
  induction s as [|c s IH]; intros Hs Ht; [done|].
  change (String c s +:+ t) with (String c (s +:+ t)).
  destruct (plain_cons c s Hs) as (H1 & H2 & H3 & Hs').
  simpl. rewrite H1, H2, H3. simpl. by apply IH.
Qed.

Lemma split_on_plain s : plain s = true → split_on "&" s = [s].
Proof.
  induction s as [|c s IH]; intros Hs; [done|].
  destruct (plain_cons c s Hs) as (H1 & _ & _ & Hs').
  simpl. by rewrite H1, IH.
Qed.

Lemma split_on_plain_app s t :
  plain s = true → split_on "&" (s +:+ String "&" t) = s :: split_on "&" t.
Proof.
  induction s as [|c s IH]; intros Hs; [done|].
  change (String c s +:+ String "&" t) with (String c (s +:+ String "&" t)).
  destruct (plain_cons c s Hs) as (H1 & _ & _ & Hs').
  simpl. by rewrite H1, IH.
Qed.

Lemma form_decode_plain s : plain s = true → form_decode s = s.
Proof.
  induction s as [|c s IH]; intros Hs; [done|].
  destruct (plain_cons c s Hs) as (_ & H2 & H3 & Hs').
  simpl. by rewrite H2, H3, IH.
Qed.

Lemma URLSearchParams_state_data s v :
  plain s = true → plain v = true →
  URLSearchParams ("state=" +:+ s +:+ "&data=" +:+ v)
  = [("state", s); ("data", v)].
Proof.
  intros Hs Hv. unfold URLSearchParams.
  change (peek "?" ("state=" +:+ s +:+ "&data=" +:+ v)) with (@None string).
  change ("state=" +:+ s +:+ "&data=" +:+ v)
    with (("state=" +:+ s) +:+ String "&" ("data=" +:+ v)) at 1.
  lazy beta iota.
  rewrite split_on_plain_app by (by apply (plain_app "state=")).
  rewrite split_on_plain by (by apply (plain_app "data=")).
  rewrite filter_cons_True by done.
  rewrite filter_cons_True by done.
  rewrite filter_nil. simpl.
  change (split_pair ("state=" +:+ s)) with ("state", s).
  change (split_pair ("data=" +:+ v)) with ("data", v).
  by rewrite !form_decode_plain.
Qed.

(** X17.  A callback [?state=s&data=v] whose [s] and [v] hold no [&],
    [%] or [+] makes [login()] resolve to [v] as it is: the payload
    goes through the query untouched, padding [=] signs included. *)
Theorem login_resolves_to_plain_data env st opened path s v :
  plain s = true → plain v = true →
  settles env
  = CallbackArrives {| path := path;
                       query := "state=" +:+ s +:+ "&data=" +:+ v |} →
  opener env (_websiteBase st +:+ "/authenticate?state=" +:+ stateId_uuid env)
    = Normal opened →
  (login env st).2 = Normal v.
Proof.
  intros Hs Hv Hev Hopen.
  destruct (login_callback env st _ opened Hev Hopen) as (Hr & _).
  rewrite Hr. simpl. by rewrite URLSearchParams_state_data.
Qed.

(** ** [InlineEdit], further *)

(** [equals] returns [true] exactly when the two edits are equal for
    [SingleTextEdit.equals], [isCollapsed] and [renderExplicitly] are
    the same, and [inlineCompletion] is the same object. *)
Lemma InlineEdit_equals_iff
    {SingleTextEdit Command InlineCompletionItem : Type}
    `{EqDecision InlineCompletionItem}
    (SingleTextEdit_equals : SingleTextEdit → SingleTextEdit → bool)
    (a b : InlineEdit.InlineEdit SingleTextEdit Command InlineCompletionItem) :
  InlineEdit.equals SingleTextEdit_equals a b = true
  ↔ SingleTextEdit_equals (InlineEdit.edit a) (InlineEdit.edit b) = true
    ∧ InlineEdit.isCollapsed a = InlineEdit.isCollapsed b
    ∧ InlineEdit.renderExplicitly a = InlineEdit.renderExplicitly b
    ∧ InlineEdit.inlineCompletion a = InlineEdit.inlineCompletion b.
Proof.
  unfold InlineEdit.equals.
  rewrite !andb_true_iff, !Bool.eqb_true_iff, bool_decide_eq_true.
  tauto.
Qed.

(** X18.  When [SingleTextEdit.equals] is an equivalence, so is
    [equals]: reflexive, symmetric and transitive. *)
Theorem InlineEdit_equals_equivalence
    {SingleTextEdit Command InlineCompletionItem : Type}
    `{EqDecision InlineCompletionItem}
    (SingleTextEdit_equals : SingleTextEdit → SingleTextEdit → bool) :
  (∀ x, SingleTextEdit_equals x x = true) →
  (∀ x y, SingleTextEdit_equals x y = true → SingleTextEdit_equals y x = true) →
  (∀ x y z, SingleTextEdit_equals x y = true → SingleTextEdit_equals y z = true →
            SingleTextEdit_equals x z = true) →
  ∀ a b c : InlineEdit.InlineEdit SingleTextEdit Command InlineCompletionItem,
    InlineEdit.equals SingleTextEdit_equals a a = true
    ∧ (InlineEdit.equals SingleTextEdit_equals a b = true →
       InlineEdit.equals SingleTextEdit_equals b a = true)
    ∧ (InlineEdit.equals SingleTextEdit_equals a b = true →
       InlineEdit.equals SingleTextEdit_equals b c = true →
       InlineEdit.equals SingleTextEdit_equals a c = true).
Proof.
  intros Hrefl Hsym Htrans a b c.
  unfold InlineEdit.equals.
  rewrite !andb_true_iff, !Bool.eqb_true_iff, !bool_decide_eq_true.
  split; [|split].
  - repeat split; auto.
  - intros (((He & Hc) & Hr) & Hi). repeat split; auto.
  - intros (((He & Hc) & Hr) & Hi) (((He' & Hc') & Hr') & Hi').
    repeat split; [by eapply Htrans|congruence..].
Qed.

(** ** The further properties at the scenarios *)

Lemma initialize_without_stored_session_witness :
  let st := constructed true false ∅ in
  secrets st !! SESSION_SECRET_KEY = None
  ∧ initialize env_refreshed st = (set_session None st, Normal tt).
Proof.
  intros st. split; [reflexivity|].
  exact (initialize_without_stored_session env_refreshed st (or_introl eq_refl)).
Defined.

Lemma initialize_refreshes_stored_session_witness :
  let st :=
    constructed true false
      {[ SESSION_SECRET_KEY := JSON_stringify (session_object session_a) ]} in
  secrets st !! SESSION_SECRET_KEY
  = Some (JSON_stringify (session_object session_a))
  ∧ (initialize env_rejected st).2 = Normal tt.
Proof.
  intros st.
  assert (secrets st !! SESSION_SECRET_KEY
          = Some (JSON_stringify (session_object session_a))) as Hst
    by (vm_compute; reflexivity).
  split; [exact Hst|].
  exact (proj1 (initialize_refreshes_stored_session env_rejected st session_a Hst)).
Defined.

Lemma initialize_rejects_corrupt_store_witness :
  secrets state_corrupt !! SESSION_SECRET_KEY = Some "{"
  ∧ JSON_parse "{" = None
  ∧ initialize env_refreshed state_corrupt = (state_corrupt, Throw SyntaxError).
Proof.
  assert (secrets state_corrupt !! SESSION_SECRET_KEY = Some "{") as Hst
    by (vm_compute; reflexivity).
  assert (JSON_parse "{" = None) as Hparse by (vm_compute; reflexivity).
  split; [exact Hst|]. split; [exact Hparse|].
  apply (initialize_rejects_corrupt_store env_refreshed state_corrupt "{" Hst);
    [discriminate|exact Hparse].
Defined.

Lemma refreshTokens_keeps_session_on_transport_failure_witness :
  let request := refresh_request "https://api.codestory.ai" session_a in
  _session state_a = Some session_a
  ∧ refresh_unreadable env_refresh_down request
  ∧ refreshTokens env_refresh_down state_a
    = (set_effects [Fetched request] state_a, Normal tt).
Proof.
  intros request. split; [reflexivity|]. split; [exact I|].
  exact (refreshTokens_keeps_session_on_transport_failure env_refresh_down
           state_a session_a eq_refl I).
Defined.

Lemma login_abandoned_witness :
  settles env_refreshed = TimeoutElapses
  ∧ (login env_refreshed state_a).2 = Throw (Reason "Cancelled").
Proof.
  split; [reflexivity|].
  exact (proj1 (login_abandoned env_refreshed state_a true eq_refl
                  (or_introl eq_refl))).
Defined.

Lemma login_pending_after_witness :
  let st := set_pendingStates ["state-0"; "state-1"] state_a in
  opener env_cancelled "https://aide.dev/authenticate?state=state-1" = Normal true
  ∧ _pendingStates (login env_cancelled st).1 = ["state-0"].
Proof.
  intros st. split; [reflexivity|].
  exact (login_pending_after env_cancelled st true eq_refl).
Defined.

Lemma login_opener_rejects_witness :
  opener env_no_browser "https://aide.dev/authenticate?state=state-1"
  = Throw (Failure "no browser")
  ∧ _pendingStates (login env_no_browser state_a).1 = ["state-1"].
Proof.
  split; [reflexivity|].
  exact (proj1 (proj2 (login_opener_rejects env_no_browser state_a _ eq_refl))).
Defined.




Lemma getUserInfo_merges_witness :
  let st' := (getUserInfo payload_2 env_refreshed state_a).1 in
  let userInfo := JObj (own_members profile_2 ++ own_members tokens_2) in
  getUserInfo payload_2 env_refreshed state_a = (st', Normal userInfo)
  ∧ requests st'
    = [GET_users_me "https://api.codestory.ai" (Some (JStr "A2"))].
Proof.
  intros st' userInfo.
  assert (getUserInfo payload_2 env_refreshed state_a = (st', Normal userInfo))
    as Hg by (vm_compute; reflexivity).
  split; [exact Hg|].
  destruct (getUserInfo_merges payload_2 env_refreshed state_a st' userInfo Hg)
    as (text & tokens & resp & text' & data & Hd & Hp & _ & _ & _ & Hst' & _).
  assert (tokens = tokens_2) as ->.
  { vm_compute in Hd. injection Hd as <-. vm_compute in Hp. by injection Hp. }
  rewrite Hst'. reflexivity.
Defined.

Lemma getUserInfo_rejects_malformed_payload_witness :
  decodeBase64 env_refreshed "!!!" = Throw SyntaxError
  ∧ (getUserInfo "!!!" env_refreshed state_a).1 = state_a.
Proof.
  split; [reflexivity|].
  exact (proj1 (getUserInfo_rejects_malformed_payload "!!!" env_refreshed
                  state_a I)).
Defined.

Lemma login_resolves_to_plain_data_witness :
  let env := env_callback ("state=state-1&data=" +:+ payload_2) in
  plain "state-1" = true ∧ plain payload_2 = true
  ∧ (login env state_a).2 = Normal payload_2.
Proof.
  intros env. split; [reflexivity|]. split; [reflexivity|].
  exact (login_resolves_to_plain_data env state_a true
           "/authenticate-codestory" "state-1" payload_2
           eq_refl eq_refl eq_refl eq_refl).
Defined.

Lemma InlineEdit_equals_equivalence_witness :
  let a : InlineEdit.InlineEdit string string nat :=
    {| InlineEdit.edit := "x"; InlineEdit.isCollapsed := false;
       InlineEdit.renderExplicitly := true; InlineEdit.commands := ["accept"];
       InlineEdit.inlineCompletion := 7 |} in
  (∀ x, String.eqb x x = true)
  ∧ InlineEdit.equals String.eqb a a = true.
Proof.
  intros a. split; [exact String.eqb_refl|].
  refine (proj1 (InlineEdit_equals_equivalence String.eqb String.eqb_refl _ _
                   a a a)).
  - intros x y Hxy. apply String.eqb_eq in Hxy. subst. apply String.eqb_refl.
  - intros x y z Hxy Hyz. apply String.eqb_eq in Hxy, Hyz. subst.
    apply String.eqb_refl.
Defined.

(** * Properties of the model configuration widget *)

Section WidgetProperties.
Import Widgets.
Context {Number Rest : Type}.
Implicit Types (sv : Services Number Rest) (w : Widget Number Rest).
Implicit Types (entry initial : IModelItemEntry Number).

(** Unfolds the widget's computations down to the answers of the
    services. *)
Ltac unfold_widget :=
  unfold save, add, edit, registerProviders, initial_modelItem, editing_call,
    call, imported, name_of, hide, wmodify, wgets, wret, wthrow;
  unfold mbind, mret, W_bind, W_ret, wbind; simpl.

(** Splits on an answer that decides how the computation goes on,
    innermost first. *)
Ltac inner_case :=
  match goal with
  | |- context [match ?x with _ => _ end] =>
      lazymatch x with
      | context [match _ with _ => _ end] => fail
      | _ => destruct x eqn:?; simpl
      end
  end.

(** Closes a case in which two answers disagree. *)
Ltac contradictory :=
  solve
    [ simplify_eq/=;
      repeat match goal with
             | H : ?x = _, H' : context [?x] |- _ =>
                 rewrite H in H'; simpl in H'
             end;
      simplify_eq/= ].

Lemma filter_is_write_grows (log new : list (Call Number Rest)) :
  List.filter is_write (log ++ new) = List.filter is_write log →
  List.filter is_write new = [].
Proof.
  rewrite List.filter_app. intros H.
  apply (f_equal length) in H. rewrite length_app in H.
  destruct (List.filter is_write new); [done|simpl in H; lia].
Qed.

(** X19.  With an entry open, [save()] talks to the services in one
    fixed order, whatever they answer: the calls it makes are an initial
    part of the sequence check the id, read the settings, select the
    edited key as slow model, validate, select the previous slow model
    again, write ([addModelConfiguration] in add mode; else
    [editModelConfiguration], after [updateModelConfigurationKey] when
    the key changed), select the edited key.  No call is made out of
    that order or twice. *)
Theorem widget_save_calls_in_order sv w entry initial :
  modelItemEntry w = Some entry →
  initialModelItemEntry w = Some initial →
  ∃ new,
    calls (save sv w).1 = (calls w ++ new)%list
    ∧ new `prefix_of`
        match getValidatedModelSelectionSettings sv
                (calls w ++ [CheckIfModelIdIsTaken (key (modelItem entry))]) with
        | Normal modelSelectionSettings =>
            protocol (currentMode w) (modelItem initial) (modelItem entry)
              modelSelectionSettings
        | Throw _ =>
            [CheckIfModelIdIsTaken (key (modelItem entry));
             GetValidatedModelSelectionSettings]
        end.
Proof.
  intros He Hi. unfold_widget. rewrite He. simpl. rewrite Hi. simpl.
  unfold protocol.
  repeat inner_case.
  all: try discriminate.
  all: rewrite <- ?app_assoc; simpl.
  all: try (exists []; rewrite app_nil_r; split; [reflexivity|apply prefix_nil]).
  all: eexists; split; [reflexivity|].
  all: try (eexists; reflexivity).
Qed.

(** X20.  With an entry open, [save()] leaves the save button enabled
    exactly when it returns normally: after every refusal and after a
    successful save the button is enabled again, and when [save()]
    throws (a service rejects, or a property of [undefined] is read)
    the button stays disabled. *)
Theorem widget_save_button sv w entry :
  modelItemEntry w = Some entry →
  saveButton_enabled (save sv w).1
  = match (save sv w).2 with Normal _ => true | Throw _ => false end.
Proof.
  intros He. unfold_widget. rewrite He. simpl.
  repeat inner_case; reflexivity.
Qed.

(** X21.  When the provider of the edited item is incomplete, the item
    itself is incomplete, or its key is that of a default model,
    [save()] calls no service at all, does not hide the widget and
    fires no hide event; and if it returns normally the message area
    holds one of the three messages of these checks. *)
Theorem widget_save_refuses_without_calls sv w entry :
  modelItemEntry w = Some entry →
  isProviderItemConfigComplete sv (provider (modelItem entry)) = Normal false
  ∨ isModelItemConfigComplete sv (modelItem entry) = false
  ∨ checkIfDefaultModel sv (key (modelItem entry)) = true →
  calls (save sv w).1 = calls w
  ∧ _isVisible (save sv w).1 = _isVisible w
  ∧ onHide_fired (save sv w).1 = onHide_fired w
  ∧ ((save sv w).2 = Normal tt →
     ∃ m, messageArea (save sv w).1 = Some m
          ∧ match m with
            | ModelIdTaken _ | ModelConfigError _ => False
            | _ => True
            end).
Proof.
  intros He H. unfold_widget. rewrite He. simpl.
  destruct H as [H|[H|H]]; repeat inner_case.
  all: try contradictory.
  all: repeat split; try done.
  all: intros _; eexists; split; [reflexivity|exact I].
Qed.

(** X22.  [save()] never writes a configuration that was not
    validated: if any of [addModelConfiguration],
    [updateModelConfigurationKey] or [editModelConfiguration] was
    called, then both entries were there, the provider and the item were
    complete, the key was not a default model's, the id was free or
    taken by the model of the same name, the settings were read, the
    validation answered [valid], and the item differs from the initial
    one. *)
Theorem widget_save_writes_only_validated sv w :
  List.filter is_write (calls (save sv w).1) ≠ List.filter is_write (calls w) →
  ∃ initial entry taken modelSelectionSettings error,
    initialModelItemEntry w = Some initial
    ∧ modelItemEntry w = Some entry
    ∧ isProviderItemConfigComplete sv (provider (modelItem entry)) = Normal true
    ∧ isModelItemConfigComplete sv (modelItem entry) = true
    ∧ checkIfDefaultModel sv (key (modelItem entry)) = false
    ∧ checkIfModelIdIsTaken sv (calls w) (key (modelItem entry)) = Normal taken
    ∧ (taken.1 = true → taken.2 = name (modelItem initial))
    ∧ getValidatedModelSelectionSettings sv
        (calls w ++ [CheckIfModelIdIsTaken (key (modelItem entry))])
      = Normal modelSelectionSettings
    ∧ validateModelConfiguration sv
        (calls w ++ [CheckIfModelIdIsTaken (key (modelItem entry));
                     GetValidatedModelSelectionSettings;
                     EditModelSelection "slowModel" (key (modelItem entry))])
        modelSelectionSettings
      = Normal (true, error)
    ∧ equals sv (modelItem initial) (modelItem entry) = false.
Proof.
  unfold_widget. repeat inner_case.
  all: rewrite <- ?app_assoc; simpl.
  all: rewrite ?List.filter_app; simpl; rewrite ?app_nil_r.
  all: try done.
  all: intros _.
  all: repeat match goal with
              | H : negb _ = false |- _ => apply negb_false_iff in H
              | p : (_ * _)%type |- _ => destruct p
              end; simplify_eq/=.
  all: repeat match goal with
              | H : context [((_ ++ _) ++ _)%list] |- _ =>
                  rewrite <- app_assoc in H; simpl in H
              end.
  all: do 5 eexists; repeat split; eauto.
  all: simpl; intros ->; simpl in *.
  all: match goal with
       | H : negb _ = false |- _ => apply negb_false_iff in H
       end.
  all: by apply String.eqb_eq.
Qed.

Lemma app_self_nil {A} (l k : list A) : l = (l ++ k)%list → k = [].
Proof.
  intros H. apply (f_equal length) in H. rewrite length_app in H.
  destruct k; [done|simpl in H; lia].
Qed.

(** X23.  A [save()] that returns normally without writing leaves the
    slow model as it found it: either it selected nothing, or it
    selected the edited key for the validation and then the
    [slowModel] of the settings it had read, in that order and nothing
    after. *)
Theorem widget_save_restores_slow_model sv w entry :
  modelItemEntry w = Some entry →
  (save sv w).2 = Normal tt →
  List.filter is_write (calls (save sv w).1) = List.filter is_write (calls w) →
  omap selects (calls (save sv w).1) = omap selects (calls w)
  ∨ ∃ modelSelectionSettings,
      getValidatedModelSelectionSettings sv
        (calls w ++ [CheckIfModelIdIsTaken (key (modelItem entry))])
      = Normal modelSelectionSettings
      ∧ omap selects (calls (save sv w).1)
        = (omap selects (calls w)
           ++ [key (modelItem entry); slowModel modelSelectionSettings])%list.
Proof.
  intros He. unfold_widget. rewrite He. simpl.
  repeat inner_case.
  all: try discriminate.
  all: intros _.
  all: rewrite <- ?app_assoc; simpl.
  all: intros Hw; try (apply filter_is_write_grows in Hw; discriminate Hw).
  all: rewrite ?omap_app; simpl; rewrite ?app_nil_r.
  all: try (by left).
  all: right; eexists; split; [reflexivity|done].
Qed.

(** X24.  If [save()] throws and its last call was
    [validateModelConfiguration], the error is the one of that call, and
    the temporary selection is not undone: the only selection made is
    that of the edited key, so the slow model stays switched; the save
    button stays disabled and the widget stays as visible as it was. *)
Theorem widget_save_validation_rejected sv w entry new modelSelectionSettings e :
  modelItemEntry w = Some entry →
  (save sv w).2 = Throw e →
  calls (save sv w).1 = (calls w ++ new)%list →
  last new = Some (ValidateModelConfiguration modelSelectionSettings) →
  omap selects new = [key (modelItem entry)]
  ∧ saveButton_enabled (save sv w).1 = false
  ∧ _isVisible (save sv w).1 = _isVisible w
  ∧ validateModelConfiguration sv
      (calls w ++ [CheckIfModelIdIsTaken (key (modelItem entry));
                   GetValidatedModelSelectionSettings;
                   EditModelSelection "slowModel" (key (modelItem entry))])
      modelSelectionSettings
    = Throw e.
Proof.
  intros He. unfold_widget. rewrite He. simpl.
  repeat inner_case.
  all: try discriminate.
  all: intros [= <-].
  all: rewrite <- ?app_assoc; simpl.
  all: intros Hc;
    first [apply app_inv_head in Hc | apply app_self_nil in Hc]; subst new.
  all: try discriminate.
  all: intros [= <-].
  all: repeat match goal with
              | H : context [((_ ++ _) ++ _)%list] |- _ =>
                  rewrite <- app_assoc in H; simpl in H
              end.
  all: done.
Qed.

(** X25.  [add] and [edit] on a widget that is already visible change
    the mode and nothing else, so the latest of them decides what the
    next [save()] writes, for the entry that is open and not for the one
    passed: after [add], the only possible write is
    [addModelConfiguration] of the open entry; after [edit], it is
    [editModelConfiguration] of the open entry alone when its key is
    that of the initial entry, and [updateModelConfigurationKey] from
    the initial key, with [editModelConfiguration] after it, when the
    key changed; never [addModelConfiguration]. *)
Theorem widget_mode_of_latest_call sv w entry n128000 n0_2 providerItems other :
  _isVisible w = true →
  modelItemEntry w = Some entry →
  let updatedModelItem := modelItem entry in
  let newKey := key updatedModelItem in
  let item := lmItem_of updatedModelItem in
  add n128000 n0_2 providerItems sv w = (set_currentMode mode_add w, Normal tt)
  ∧ edit other providerItems sv w = (set_currentMode mode_edit w, Normal tt)
  ∧ (∃ writes,
       List.filter is_write
         (calls ((add n128000 n0_2 providerItems;; save) sv w).1)
       = (List.filter is_write (calls w) ++ writes)%list
       ∧ (writes = [] ∨ writes = [AddModelConfiguration newKey item]))
  ∧ (∃ writes,
       List.filter is_write (calls ((edit other providerItems;; save) sv w).1)
       = (List.filter is_write (calls w) ++ writes)%list
       ∧ match initialModelItemEntry w with
         | None => writes = []
         | Some initial =>
             let oldKey := key (modelItem initial) in
             writes = []
             ∨ (oldKey = newKey ∧ writes = [EditModelConfiguration newKey item])
             ∨ (oldKey ≠ newKey
                ∧ (writes = [UpdateModelConfigurationKey oldKey newKey]
                   ∨ writes = [UpdateModelConfigurationKey oldKey newKey;
                               EditModelConfiguration newKey item]))
         end).
Proof.
  intros Hv He updatedModelItem newKey item.
  subst updatedModelItem newKey item.
  split; [|split]; [by unfold_widget; rewrite Hv..|].
  split; unfold_widget; rewrite Hv; simpl; rewrite He; simpl.
  all: repeat inner_case.
  all: try discriminate.
  all: rewrite <- ?app_assoc; simpl.
  all: rewrite ?List.filter_app; simpl.
  all: try (exists []; rewrite app_nil_r; split; [reflexivity|by auto]).
  all: eexists; split; [reflexivity|].
  all: repeat match goal with
              | H : negb _ = true |- _ => apply negb_true_iff in H
              | H : negb _ = false |- _ => apply negb_false_iff in H
              | H : String.eqb _ _ = true |- _ => apply String.eqb_eq in H
              | H : String.eqb _ _ = false |- _ => apply String.eqb_neq in H
              end.
  all: auto 6.
Qed.

Lemma find_findIndex {A} (f : A → bool) (l : list A) :
  match List.find f l with
  | Some x =>
      ∃ i : nat, findIndex f l = Z.of_nat i ∧ l !! i = Some x ∧ f x = true
  | None => findIndex f l = (-1)%Z
  end.
Proof.
  induction l as [|y l IH]; simpl; [done|].
  destruct (f y) eqn:Hy; [by exists 0%nat|].
  destruct (List.find f l) as [x|].
  - destruct IH as (i & -> & Hi & Hx). exists (S i).
    destruct (Z.ltb_spec (Z.of_nat i) 0); [lia|].
    split; [lia|done].
  - by rewrite IH.
Qed.

Lemma find_filter {A} (f h : A → bool) (l : list A) :
  (∀ x, f x = true → h x = true) →
  List.find f (List.filter h l) = List.find f l.
Proof.
  intros Hfh. induction l as [|y l IH]; simpl; [done|].
  destruct (f y) eqn:Hy.
  - rewrite (Hfh y Hy). simpl. by rewrite Hy.
  - destruct (h y); simpl; [by rewrite Hy|done].
Qed.

(** A [map] whose function only reads leaves the widget as it was,
    and returns the results in order. *)
Lemma wmap_reads {A B} (f : A → W Number Rest B)
    (g : Services Number Rest → A → Completion B) :
  (∀ x sv w, f x sv w = (w, g sv x)) →
  ∀ l sv w,
    match wmap f l sv w with
    | (w', Normal ys) => w' = w ∧ Forall2 (λ y x, g sv x = Normal y) ys l
    | (_, Throw _) => True
    end.
Proof.
  intros Hf l sv w. induction l as [|x l IH]; simpl; [done|].
  unfold mbind, W_bind, wbind. rewrite Hf.
  destruct (g sv x) as [y|] eqn:Hx; [|done].
  destruct (wmap f l sv w) as [w' [ys|]]; [|done].
  destruct IH as [-> IH]. split; [done|]. by constructor.
Qed.

(** The options that [registerProviders] computes: one for each
    provider, in order, disabled when the provider is incomplete. *)
Lemma registerProviders_options sv w w' providers defaultProviderName :
  registerProviders providers defaultProviderName sv w = (w', Normal tt) →
  w' = set_providerValue (providerValue_options w')
         (findIndex (λ provider,
                       String.eqb (provider_name provider) defaultProviderName)
            providers) w
  ∧ Forall2
      (λ option providerItem,
         text option = provider_name providerItem
         ∧ isProviderItemConfigComplete sv (Some providerItem)
           = Normal (negb (isDisabled option)))
      (providerValue_options w') providers.
Proof.
  unfold registerProviders.
  match goal with |- context [wmap ?f providers] =>
    pose proof (wmap_reads f
                  (λ sv providerItem,
                     match isProviderItemConfigComplete sv (Some providerItem) with
                     | Normal complete =>
                         Normal {| text := provider_name providerItem;
                                   decoratorRight :=
                                     if complete : bool
                                     then EmptyString else "Not configured";
                                   isDisabled := negb complete |}
                     | Throw e => Throw e
                     end)) as Hmap;
    set (g := f) in *
  end.
  specialize (Hmap ltac:(intros x sv0 w0; subst g; simpl;
                         unfold imported, mbind, W_bind, wbind; simpl;
                         by destruct (isProviderItemConfigComplete sv0 (Some x)))
                providers sv w).
  unfold mbind, W_bind, wbind.
  destruct (wmap g providers sv w) as [w1 [options|]]; [|done].
  destruct Hmap as [-> Hmap]. unfold wmodify. intros [= <-]. simpl.
  split; [done|].
  eapply Forall2_impl; [exact Hmap|]. simpl. intros o p Hp.
  destruct (isProviderItemConfigComplete sv (Some p)) as [complete|]; [|done].
  injection Hp as <-. simpl. by rewrite negb_involutive.
Qed.

(** X26.  [add] on a widget that is not visible opens it in add mode on
    one new entry, initial and current; the select box gets one option
    for each provider other than [CodeStory], in order, named after it
    and disabled exactly when it is incomplete; and the index given to
    [select] is that of the entry's own provider, the first one named
    [Open Router], or [-1] when the entry has no provider. *)
Theorem widget_add_preselects sv w w' n128000 n0_2 providerItems :
  _isVisible w = false →
  add n128000 n0_2 providerItems sv w = (w', Normal tt) →
  let validProviders :=
    List.filter (λ providerItem,
                   negb (String.eqb (provider_name providerItem) "CodeStory"))
      providerItems in
  ∃ entry,
    modelItemEntry w' = Some entry
    ∧ initialModelItemEntry w' = Some entry
    ∧ currentMode w' = mode_add
    ∧ text <$> providerValue_options w' = provider_name <$> validProviders
    ∧ ("CodeStory" ∉ text <$> providerValue_options w')
    ∧ Forall2
        (λ option providerItem,
           isProviderItemConfigComplete sv (Some providerItem)
           = Normal (negb (isDisabled option)))
        (providerValue_options w') validProviders
    ∧ match provider (modelItem entry) with
      | Some providerItem =>
          provider_name providerItem = "Open Router"
          ∧ ∃ i : nat,
              providerValue_select w' = Z.of_nat i
              ∧ validProviders !! i = Some providerItem
      | None => providerValue_select w' = (-1)%Z
      end.
Proof.
  intros Hv Hadd validProviders. revert Hadd.
  unfold add, wmodify, wgets. unfold mbind, W_bind, wbind. simpl.
  rewrite Hv. simpl. fold validProviders.
  intros Hadd. apply registerProviders_options in Hadd as [Hw' Hopts].
  assert (text <$> providerValue_options w' = provider_name <$> validProviders)
    as Htexts.
  { clear Hw'. induction Hopts as [|o p os ps [Ho _] _ IH]; csimpl; [done|].
    by rewrite Ho, IH. }
  eexists. rewrite Hw'. simpl. repeat split; [done|..].
  - rewrite Htexts. subst validProviders. intros Hin.
    apply list_elem_of_fmap in Hin as (p & Hp & Hin).
    apply list_elem_of_In, List.filter_In in Hin as [_ Hne].
    rewrite <- Hp in Hne. by rewrite String.eqb_refl in Hne.
  - eapply Forall2_impl; [exact Hopts|]. by intros o p [_ Hp].
  - pose proof (find_findIndex
                  (λ provider, String.eqb (provider_name provider) "Open Router")
                  validProviders) as Hfind.
    subst validProviders. rewrite find_filter in Hfind.
    + destruct (List.find _ providerItems) as [p|]; [|done].
      destruct Hfind as (i & Hi & Hp & Hname).
      split; [by apply String.eqb_eq|]. by exists i.
    + intros x Hx. apply String.eqb_eq in Hx. by rewrite Hx.
Qed.
End WidgetProperties.

(** ** The properties of the widget at the scenarios *)

Section WidgetScenarios.
Import Widgets.

Lemma widget_save_calls_in_order_witness :
  let w := widget_renaming in
  modelItemEntry w = Some {| modelItem := item_renamed |}
  ∧ initialModelItemEntry w = Some {| modelItem := item_stored |}
  ∧ ∃ new,
      calls (save services_accepting w).1 = (calls w ++ new)%list
      ∧ new `prefix_of`
          protocol mode_edit item_stored item_renamed
            {| slowModel := "Gpt4"; settings_rest := tt |}.
Proof.
  intros w. split; [reflexivity|]. split; [reflexivity|].
  exact (widget_save_calls_in_order services_accepting w _ _ eq_refl eq_refl).
Defined.

Lemma widget_save_button_witness :
  let w := widget_renaming in
  modelItemEntry w = Some {| modelItem := item_renamed |}
  ∧ (save services_validation_down w).2 = Throw (Failure "validation")
  ∧ saveButton_enabled (save services_validation_down w).1 = false.
Proof.
  intros w. split; [reflexivity|]. split; [vm_compute; reflexivity|].
  exact (widget_save_button services_validation_down w _ eq_refl).
Defined.

Lemma widget_save_refuses_without_calls_witness :
  let w := (add (128000, 0)%Z (2, -1)%Z providerItems services_accepting
              widget_closed).1 in
  ∃ entry,
    modelItemEntry w = Some entry
    ∧ isModelItemConfigComplete services_accepting (modelItem entry) = false
    ∧ calls (save services_accepting w).1 = calls w.
Proof.
  intros w. eexists. split; [reflexivity|]. split; [reflexivity|].
  exact (proj1 (widget_save_refuses_without_calls services_accepting w _
                  eq_refl (or_intror (or_introl eq_refl)))).
Defined.

Lemma widget_save_writes_only_validated_witness :
  let w := widget_renaming in
  List.filter is_write (calls (save services_accepting w).1)
  ≠ List.filter is_write (calls w)
  ∧ ∃ initial entry,
      initialModelItemEntry w = Some initial
      ∧ modelItemEntry w = Some entry
      ∧ equals services_accepting (modelItem initial) (modelItem entry) = false.
Proof.
  intros w.
  assert (List.filter is_write (calls (save services_accepting w).1)
          ≠ List.filter is_write (calls w)) as Hw
    by (vm_compute; discriminate).
  split; [exact Hw|].
  destruct (widget_save_writes_only_validated services_accepting w Hw)
    as (initial & entry & _ & _ & _ & Hi & He & _ & _ & _ & _ & _ & _ & _ & Heq).
  exists initial, entry. split; [exact Hi|]. split; [exact He|exact Heq].
Defined.

Lemma widget_save_restores_slow_model_witness :
  let w := (edit {| modelItem := item_stored |} providerItems services_accepting
              widget_closed).1 in
  modelItemEntry w = Some {| modelItem := item_stored |}
  ∧ (save services_accepting w).2 = Normal tt
  ∧ List.filter is_write (calls (save services_accepting w).1)
    = List.filter is_write (calls w)
  ∧ (omap selects (calls (save services_accepting w).1) = omap selects (calls w)
     ∨ ∃ modelSelectionSettings,
         getValidatedModelSelectionSettings services_accepting
           (calls w ++ [CheckIfModelIdIsTaken "my-model"])
         = Normal modelSelectionSettings
         ∧ omap selects (calls (save services_accepting w).1)
           = (omap selects (calls w)
              ++ ["my-model"; slowModel modelSelectionSettings])%list).
Proof.
  intros w.
  assert ((save services_accepting w).2 = Normal tt) as Hr
    by (vm_compute; reflexivity).
  assert (List.filter is_write (calls (save services_accepting w).1)
          = List.filter is_write (calls w)) as Hw
    by (vm_compute; reflexivity).
  split; [reflexivity|]. split; [exact Hr|]. split; [exact Hw|].
  exact (widget_save_restores_slow_model services_accepting w _ eq_refl Hr Hw).
Defined.

Lemma widget_save_validation_rejected_witness :
  let w := widget_renaming in
  let modelSelectionSettings := {| slowModel := "Gpt4"; settings_rest := tt |} in
  let new :=
    [ CheckIfModelIdIsTaken "my-model-2";
      GetValidatedModelSelectionSettings;
      EditModelSelection "slowModel" "my-model-2";
      ValidateModelConfiguration modelSelectionSettings ] in
  (save services_validation_down w).2 = Throw (Failure "validation")
  ∧ calls (save services_validation_down w).1 = (calls w ++ new)%list
  ∧ omap selects new = ["my-model-2"]
  ∧ saveButton_enabled (save services_validation_down w).1 = false.
Proof.
  intros w modelSelectionSettings new.
  assert ((save services_validation_down w).2 = Throw (Failure "validation"))
    as Hr by (vm_compute; reflexivity).
  assert (calls (save services_validation_down w).1 = (calls w ++ new)%list)
    as Hc by (vm_compute; reflexivity).
  split; [exact Hr|]. split; [exact Hc|].
  pose proof (widget_save_validation_rejected services_validation_down w
                {| modelItem := item_renamed |} new modelSelectionSettings
                (Failure "validation") eq_refl Hr Hc eq_refl)
    as (Hs & Hb & _).
  split; [exact Hs|exact Hb].
Defined.

Lemma widget_mode_of_latest_call_witness :
  let w := widget_renaming in
  let item := lmItem_of item_renamed in
  _isVisible w = true
  ∧ modelItemEntry w = Some {| modelItem := item_renamed |}
  ∧ List.filter is_write
      (calls ((add (128000, 0)%Z (2, -1)%Z providerItems;; save)
                services_accepting w).1)
    = [AddModelConfiguration "my-model-2" item]
  ∧ List.filter is_write
      (calls ((edit {| modelItem := item_stored |} providerItems;; save)
                services_accepting w).1)
    = [UpdateModelConfigurationKey "my-model" "my-model-2";
       EditModelConfiguration "my-model-2" item]
  ∧ ∃ writes,
      List.filter is_write
        (calls ((add (128000, 0)%Z (2, -1)%Z providerItems;; save)
                  services_accepting w).1)
      = (List.filter is_write (calls w) ++ writes)%list
      ∧ (writes = [] ∨ writes = [AddModelConfiguration "my-model-2" item]).
Proof.
  intros w item. split; [reflexivity|]. split; [reflexivity|].
  split; [vm_compute; reflexivity|]. split; [vm_compute; reflexivity|].
  exact (proj1 (proj2 (proj2
           (widget_mode_of_latest_call services_accepting w
              {| modelItem := item_renamed |} (128000, 0)%Z (2, -1)%Z
              providerItems {| modelItem := item_stored |}
              eq_refl eq_refl)))).
Defined.

Lemma widget_add_preselects_witness :
  let w' := (add (128000, 0)%Z (2, -1)%Z providerItems services_accepting
               widget_closed).1 in
  _isVisible widget_closed = false
  ∧ add (128000, 0)%Z (2, -1)%Z providerItems services_accepting widget_closed
    = (w', Normal tt)
  ∧ text <$> providerValue_options w' = ["Azure OpenAI"; "Open Router"]
  ∧ providerValue_select w' = 1%Z.
Proof.
  intros w'.
  assert (add (128000, 0)%Z (2, -1)%Z providerItems services_accepting
            widget_closed = (w', Normal tt)) as Hadd
    by (vm_compute; reflexivity).
  split; [reflexivity|]. split; [exact Hadd|].
  destruct (widget_add_preselects services_accepting widget_closed w'
              (128000, 0)%Z (2, -1)%Z providerItems eq_refl Hadd)
    as (entry & He & _ & _ & Htexts & _ & _ & Hp).
  split; [exact Htexts|].
  vm_compute in He. injection He as <-. simpl in Hp.
  destruct Hp as (_ & i & Hi & _). vm_compute. reflexivity.
Defined.
End WidgetScenarios.
